(** * Tool relevance scoring and selection (remix-ai-core, toolScoring.ts)

    A shallow embedding of the [ToolScoring] service and the properties
    its specification states about it.

    Conventions of the embedding:
    - a JavaScript [number] is, in the scorer, an exact rational ([Q]): the
      scorer only adds, multiplies, divides by a positive count, compares
      and takes min/max of decimal constants, and rounding of doubles is
      not modelled there; the hybrid selection, which compares a product
      with a bar, is written over a class of numbers ([JSNumber]) that has
      the exact rationals and the IEEE 754 doubles as instances;
    - a JavaScript string is a [string] of 8-bit characters, and
      [toLowerCase] lowers the ASCII letters;
    - a plain object used as a dictionary is a [gmap string _] holding its
      own keys; what a lookup would find on [Object.prototype] is not
      modelled, and a property that depends on the lookup of an arbitrary
      key assumes that the key is none of [JS.objectPrototypeKeys]; where
      the code iterates over [Object.entries] the table is an association
      list in declaration order;
    - a [Map] of counters is a [gmap string nat];
    - an optional field or defaulted argument is an [option]. *)

From Stdlib Require Import QArith Qminmax Qround Lqa.
From Stdlib Require Import String Ascii DecimalString.
From Stdlib Require Floats Uint63.
From stdpp Require Import base option list sorting strings gmap fin_maps.

Local Open Scope string_scope.

(** ** JavaScript built-ins used by the service *)

Module JS.

(** [s.includes(sub)]: [sub] occurs in [s] as a contiguous substring. *)
Fixpoint includes (s sub : string) : bool :=
  String.prefix sub s ||
  match s with
  | EmptyString => false
  | String _ s' => includes s' sub
  end.

Definition lower_ascii (c : ascii) : ascii :=
  let n := nat_of_ascii c in
  if (65 <=? n)%nat && (n <=? 90)%nat then ascii_of_nat (n + 32) else c.

(** [s.toLowerCase()] *)
Fixpoint toLowerCase (s : string) : string :=
  match s with
  | EmptyString => EmptyString
  | String c s' => String (lower_ascii c) (toLowerCase s')
  end.

(** [s.substring(0, e)] for a non-negative integer [e]. *)
Definition substring0 (e : nat) (s : string) : string :=
  String.substring 0 e s.

(** [parts.join(sep)] *)
Definition join (sep : string) (parts : list string) : string :=
  String.concat sep parts.

(** [x || d] on numbers: [0] is falsy. *)
Definition num_or (x d : Q) : Q :=
  if Qeq_bool x 0 then d else x.

(** [x || d] on an optional number: [undefined] and [0] are falsy. *)
Definition opt_num_or (x : option Q) (d : Q) : Q :=
  match x with
  | Some v => num_or v d
  | None => d
  end.

(** [x > y] on numbers. *)
Definition gt (x y : Q) : bool := negb (Qle_bool x y).

(** [x >= y] on numbers. *)
Definition ge (x y : Q) : bool := Qle_bool y x.

(** [Math.round(x)]: the integer nearest to [x], halves rounded up. *)
Definition round (x : Q) : Z := Qfloor (x + (1 # 2))%Q.

(** The decimal text of an integer, as a template literal prints it. *)
Definition string_of_Z (z : Z) : string :=
  NilZero.string_of_int (Z.to_int z).

(** [Array.prototype.sort(cmp)]: the stable sort that puts [a] before [b]
    when [cmp a b < 0].  Insertion from the right keeps equal elements in
    input order. *)
Section Sort.
Context {A : Type} (cmp : A -> A -> Q).

Fixpoint insert_sorted (x : A) (l : list A) : list A :=
  match l with
  | [] => [x]
  | y :: l' =>
      if Qle_bool (cmp x y) 0 then x :: y :: l'
      else y :: insert_sorted x l'
  end.

Fixpoint sort (l : list A) : list A :=
  match l with
  | [] => []
  | x :: l' => insert_sorted x (sort l')
  end.
End Sort.

(** [l.push(x)] *)
Definition push {A : Type} (l : list A) (x : A) : list A := (l ++ [x])%list.

(** [l.slice(0, n)] for a non-negative integer [n]. *)
Definition slice0 {A : Type} (n : nat) (l : list A) : list A := take n l.

(** [s.slice(n)] for a non-negative integer [n]. *)
Fixpoint dropString (n : nat) (s : string) : string :=
  match n, s with
  | O, _ => s
  | S n', String _ s' => dropString n' s'
  | S _, EmptyString => EmptyString
  end.

(** [s.replace(pat, rep)] for a string pattern [pat] and a replacement text
    [rep] without dollar signs: the first occurrence of [pat] is replaced. *)
Fixpoint replaceFirst (s pat rep : string) : string :=
  if String.prefix pat s then rep ++ dropString (String.length pat) s
  else
    match s with
    | EmptyString => EmptyString
    | String c s' => String c (replaceFirst s' pat rep)
    end.

(** Truthiness of an optional string: [undefined] and the empty string are
    falsy. *)
Definition truthy (x : option string) : bool :=
  match x with
  | Some s => negb (String.eqb s "")
  | None => false
  end.

(** [x || y] on optional strings. *)
Definition str_or (x y : option string) : option string :=
  if truthy x then x else y.

(** The property names every plain object inherits from
    [Object.prototype]: a lookup of one of them on an object that has no
    such key of its own does not yield [undefined]. *)
Definition objectPrototypeKeys : list string :=
  ["constructor"; "__defineGetter__"; "__defineSetter__"; "hasOwnProperty";
   "__lookupGetter__"; "__lookupSetter__"; "isPrototypeOf";
   "propertyIsEnumerable"; "toString"; "valueOf"; "__proto__";
   "toLocaleString"].

(** Whether [k] is one of these names. *)
Definition inherited (k : string) : bool :=
  existsb (String.eqb k) objectPrototypeKeys.

End JS.

(** ** Numbers *)

(** The number a count stands for. *)
Definition num (n : nat) : Q := inject_Z (Z.of_nat n).

(** The arithmetic the hybrid selection uses: decimal literals, the number
    of a count, [*], [-], [+], [Math.min] and [>]. *)
Class JSNumber (N : Type) := {
  jdecimal : Q -> N;
  jcount : nat -> N;
  jmul : N -> N -> N;
  jsub : N -> N -> N;
  jadd : N -> N -> N;
  jmin : N -> N -> N;
  jgt : N -> N -> bool
}.

(** Exact rationals. *)
#[global] Instance rational_number : JSNumber Q := {|
  jdecimal := fun q => q;
  jcount := num;
  jmul := Qmult;
  jsub := Qminus;
  jadd := Qplus;
  jmin := Qmin;
  jgt := JS.gt
|}.

(** IEEE 754 binary64 numbers, the numbers of JavaScript. *)
Definition double_of_Z (z : Z) : PrimFloat.float :=
  match z with
  | Z0 => PrimFloat.zero
  | Zpos p => PrimFloat.of_uint63 (Uint63.of_Z (Zpos p))
  | Zneg p => PrimFloat.opp (PrimFloat.of_uint63 (Uint63.of_Z (Zpos p)))
  end.

(** The double a decimal literal denotes: the correctly rounded quotient of
    its numerator and denominator, both below 2^53. *)
Definition double_of_decimal (q : Q) : PrimFloat.float :=
  PrimFloat.div (double_of_Z (Qnum q)) (double_of_Z (Zpos (Qden q))).

(** [Math.min] on doubles. *)
Definition double_min (x y : PrimFloat.float) : PrimFloat.float :=
  if PrimFloat.is_nan x then x
  else if PrimFloat.is_nan y then y
  else if PrimFloat.ltb x y then x
  else if PrimFloat.ltb y x then y
  else if PrimFloat.get_sign x then x else y.

#[global] Instance double_number : JSNumber PrimFloat.float := {|
  jdecimal := double_of_decimal;
  jcount := fun n => double_of_Z (Z.of_nat n);
  jmul := PrimFloat.mul;
  jsub := PrimFloat.sub;
  jadd := PrimFloat.add;
  jmin := double_min;
  jgt := fun x y => PrimFloat.ltb y x
|}.

(** ** Data model *)

(** Modelled from the spec: the types of [../types/mcp] ([IMCPTool],
    [IUserIntent], [IEnhancedMCPProviderParams]) are imported by the service
    and not part of the sources at hand; their fields follow sections 3 and
    6 of the specification.  The input-schema descriptor is structured data
    of some type [Schema] that [JSON.stringify] serialises to text. *)
Class JSONStringify (Schema : Type) := JSON_stringify : Schema -> string.

Record IMCPTool (Schema : Type) := {
  name : string;
  description : option string;
  inputSchema : Schema
}.
Arguments name {Schema} _.
Arguments description {Schema} _.
Arguments inputSchema {Schema} _.

Record IUserIntent := {
  type : string;
  keywords : list string;
  domains : list string
}.

Record IEnhancedMCPProviderParams := {
  domainWeights : option (gmap string Q);
  toolRelevanceThreshold : option Q;
  maxTools : option nat;
  selectionStrategy : option string
}.

(** The default argument [{}] of [scoreTools]. *)
Definition noParams : IEnhancedMCPProviderParams :=
  {| domainWeights := None; toolRelevanceThreshold := None;
     maxTools := None; selectionStrategy := None |}.

(** The component breakdown and the scored tool, over the numbers [N]. *)
Record ComponentsOf (N : Type) := {
  keywordMatch : N;
  domainRelevance : N;
  typeRelevance : N;
  actionMatch : N
}.
Arguments keywordMatch {N} _.
Arguments domainRelevance {N} _.
Arguments typeRelevance {N} _.
Arguments actionMatch {N} _.

Record IToolScoreOf (N Schema : Type) := {
  tool : IMCPTool Schema;
  serverName : string;
  score : N;
  components : ComponentsOf N;
  reasoning : string
}.
Arguments tool {N Schema} _.
Arguments serverName {N Schema} _.
Arguments score {N Schema} _.
Arguments components {N Schema} _.
Arguments reasoning {N Schema} _.

(** With the numbers of the scorer. *)
Abbreviation Components := (ComponentsOf Q).
Abbreviation IToolScore := (IToolScoreOf Q).

(** The value [calculateToolScore] returns. *)
Record ToolScoreResult := {
  result_score : Q;
  result_components : Components;
  result_reasoning : string
}.

(** ** The static tables of the service *)

Definition defaultDomainWeights : gmap string Q :=
  list_to_map
    [ ("solidity", 1.0); ("javascript", 0.8); ("react", 0.7); ("web3", 0.9);
      ("testing", 0.6); ("deployment", 0.7); ("security", 1.0);
      ("defi", 0.8); ("nft", 0.7); ("compilation", 0.9);
      ("debugging", 0.9); ("file", 0.7); ("tutorial", 0.6) ]%Q.

Definition intentTypeToActions : gmap string (list string) :=
  list_to_map
    [ ("coding", ["compile"; "build"; "create"; "write"; "generate"; "scaffold"]);
      ("documentation", ["read"; "list"; "get"; "fetch"; "show"]);
      ("debugging", ["debug"; "trace"; "inspect"; "breakpoint"; "step"; "watch"]);
      ("explanation", ["read"; "get"; "analyze"; "scan"; "explain"]);
      ("generation", ["create"; "generate"; "scaffold"; "write"; "build"]);
      ("completion", ["get"; "read"; "list"; "fetch"; "autocomplete"]) ].

(** [Object.entries(this.actionPatterns)], in declaration order. *)
Definition actionPatterns : list (string * list string) :=
  [ ("file_operations",
      ["read"; "write"; "create"; "delete"; "move"; "copy"; "list"; "exists"]);
    ("compilation", ["compile"; "build"; "verify"; "optimize"]);
    ("deployment", ["deploy"; "send"; "call"; "execute"; "run"]);
    ("debugging", ["debug"; "breakpoint"; "step"; "watch"; "trace"; "evaluate"]);
    ("analysis", ["scan"; "analyze"; "check"; "inspect"; "validate"]);
    ("configuration", ["set"; "get"; "config"; "update"]);
    ("tutorial", ["tutorial"; "learn"; "guide"; "start"]) ].

(** [this.intentTypeToActions[intentType] || []], for the keys the table
    has of its own.  The table is a plain object: at an intent type that
    is one of [JS.objectPrototypeKeys] (none of the six types is) the
    lookup of the code finds an inherited member, which is no list of
    verbs, and the loops over it throw. *)
Definition expectedActionsOf (intentType : string) : list string :=
  default [] (intentTypeToActions !! intentType).

(** ** The service *)

Section Service.
Context {Schema : Type} `{!JSONStringify Schema}.
Local Open Scope Q_scope.

(** *** Keyword match *)

(** One turn of the loop over the keywords, on the pair
    [(matchScore, matchCount)]. *)
Definition keywordStep (toolText : string) (st : Q * nat) (keyword : string)
  : Q * nat :=
  let '(matchScore, matchCount) := st in
  let keywordLower := JS.toLowerCase keyword in
  if JS.includes toolText keywordLower then
    (matchScore + 1.0, S matchCount)
  else if JS.includes toolText
            (JS.substring0 (Nat.max 4 (String.length keywordLower - 2))
               keywordLower) then
    (matchScore + 0.7, S matchCount)
  else st.

(** The text the keywords are searched in. *)
Definition keywordToolText (tool : IMCPTool Schema) : string :=
  JS.toLowerCase
    (JS.join " " [name tool; default "" (description tool);
                  JSON_stringify (inputSchema tool)]).

(** [matchScore] when the loop and the name-in-prompt boost are done,
    before it is divided and clamped. *)
Definition keywordMatchScore (tool : IMCPTool Schema) (keywords : list string)
    (prompt : string) : Q :=
  let toolText := keywordToolText tool in
  let promptLower := JS.toLowerCase prompt in
  let matchScore := fst (foldl (keywordStep toolText) (0, 0%nat) keywords) in
  if JS.includes promptLower (JS.toLowerCase (name tool)) then matchScore + 1.0
  else matchScore.

Definition calculateKeywordMatch (tool : IMCPTool Schema)
    (keywords : list string) (prompt : string) : Q :=
  if (length keywords =? 0)%nat then 0
  else
    let matchScore := keywordMatchScore tool keywords prompt in
    if (0 <? length keywords)%nat
    then Qmin (matchScore / num (length keywords)) 1.0
    else 0.

(** *** Domain relevance *)

Definition domainToolText (tool : IMCPTool Schema) : string :=
  JS.toLowerCase (JS.join " " [name tool; default "" (description tool)]).

(** One turn of the loop over the domains, on the pair
    [(totalRelevance, matchCount)].  The weight is read among the keys the
    table has of its own: at a domain that is one of
    [JS.objectPrototypeKeys] the lookup of the code finds an inherited
    member, which is no number, and once such a domain is matched the sum
    is no number either. *)
Definition domainStep (toolText : string) (weights : gmap string Q)
    (st : Q * nat) (domain : string) : Q * nat :=
  let '(totalRelevance, matchCount) := st in
  let weight := JS.opt_num_or (weights !! domain) 0.5 in
  if JS.includes toolText (JS.toLowerCase domain) then
    (totalRelevance + weight, S matchCount)
  else st.

Definition calculateDomainRelevance (tool : IMCPTool Schema)
    (domains : list string) (weights : gmap string Q) : Q :=
  if (length domains =? 0)%nat then 0.5
  else
    let toolText := domainToolText tool in
    let '(totalRelevance, matchCount) :=
      foldl (domainStep toolText weights) (0, 0%nat) domains in
    if (0 <? matchCount)%nat then totalRelevance / num matchCount else 0.

(** *** Type relevance *)

Definition calculateTypeRelevance (tool : IMCPTool Schema)
    (intentType : string) : Q :=
  let expectedActions := expectedActionsOf intentType in
  if (length expectedActions =? 0)%nat then 0.5
  else
    let toolName := JS.toLowerCase (name tool) in
    let toolDesc := JS.toLowerCase (default "" (description tool)) in
    let maxRelevance :=
      foldl (fun maxRelevance action =>
               if JS.includes toolName action || JS.includes toolDesc action
               then Qmax maxRelevance 1.0
               else maxRelevance)
            0 expectedActions in
    JS.num_or maxRelevance 0.3.

(** *** Action match *)

(** The body of the inner loop of the first pass. *)
Definition actionStep (toolName promptLower : string) (matchScore : Q)
    (action : string) : Q :=
  if JS.includes toolName action then
    if JS.includes promptLower action then Qmax matchScore 1.0
    else Qmax matchScore 0.6
  else matchScore.

(** The body of the loop of the second pass. *)
Definition expectedStep (toolName : string) (matchScore : Q)
    (action : string) : Q :=
  if JS.includes toolName action then Qmax matchScore 0.8 else matchScore.

Definition calculateActionMatch (tool : IMCPTool Schema)
    (intentType : string) (prompt : string) : Q :=
  let toolName := JS.toLowerCase (name tool) in
  let promptLower := JS.toLowerCase prompt in
  let matchScore :=
    foldl (fun matchScore '(category, actions) =>
             foldl (actionStep toolName promptLower) matchScore actions)
          0 actionPatterns in
  let expectedActions := expectedActionsOf intentType in
  foldl (expectedStep toolName) matchScore expectedActions.

(** *** Reasoning *)

Definition generateReasoningExplanation (c : Components)
    (tool : IMCPTool Schema) (intent : IUserIntent) : string :=
  let reasons : list string := [] in
  let reasons :=
    if JS.gt (keywordMatch c) 0.7
    then JS.push reasons
           ("Strong keyword match ("
            ++ JS.string_of_Z (JS.round (keywordMatch c * 100)) ++ "%)")
    else reasons in
  let reasons :=
    if JS.gt (domainRelevance c) 0.7
    then JS.push reasons
           ("Highly relevant to " ++ JS.join ", " (domains intent)
            ++ " domains")
    else reasons in
  let reasons :=
    if JS.gt (typeRelevance c) 0.7
    then JS.push reasons ("Well-suited for " ++ type intent ++ " tasks")
    else reasons in
  let reasons :=
    if JS.gt (actionMatch c) 0.7
    then JS.push reasons "Action matches user intent"
    else reasons in
  let reasons :=
    if (length reasons =? 0)%nat then JS.push reasons "General utility tool"
    else reasons in
  JS.join "; " reasons.

(** *** Aggregate *)

Inductive ComponentKey :=
  KeywordMatch | DomainRelevance | TypeRelevance | ActionMatch.

(** [Object.entries(components)] *)
Definition entries (c : Components) : list (ComponentKey * Q) :=
  [ (KeywordMatch, keywordMatch c); (DomainRelevance, domainRelevance c);
    (TypeRelevance, typeRelevance c); (ActionMatch, actionMatch c) ].

Definition weights (k : ComponentKey) : Q :=
  match k with
  | KeywordMatch => 0.35
  | DomainRelevance => 0.25
  | TypeRelevance => 0.20
  | ActionMatch => 0.20
  end.

Definition calculateToolScore (tool : IMCPTool Schema) (intent : IUserIntent)
    (prompt : string) (domainWeights : gmap string Q) : ToolScoreResult :=
  let components :=
    {| keywordMatch := calculateKeywordMatch tool (keywords intent) prompt;
       domainRelevance :=
         calculateDomainRelevance tool (domains intent) domainWeights;
       typeRelevance := calculateTypeRelevance tool (type intent);
       actionMatch := calculateActionMatch tool (type intent) prompt |} in
  let score :=
    foldl (fun acc '(component, value) => acc + weights component * value)
          0 (entries components) in
  let reasoning := generateReasoningExplanation components tool intent in
  {| result_score := score; result_components := components;
     result_reasoning := reasoning |}.

(** *** Scoring a collection *)

(** The body of the loop of [scoreTools]. *)
Definition scoreStep (intent : IUserIntent) (prompt : string)
    (domainWeights : gmap string Q) (relevanceThreshold : Q)
    (scoredTools : list (IToolScore Schema))
    (entry : IMCPTool Schema * string) : list (IToolScore Schema) :=
  let '(tool, serverName) := entry in
  let score := calculateToolScore tool intent prompt domainWeights in
  if JS.ge (result_score score) relevanceThreshold then
    JS.push scoredTools
      {| tool := tool; serverName := serverName;
         score := result_score score;
         components := result_components score;
         reasoning := result_reasoning score |}
  else scoredTools.

Definition scoreTools (tools : list (IMCPTool Schema * string))
    (intent : IUserIntent) (prompt : string)
    (params : IEnhancedMCPProviderParams) : list (IToolScore Schema) :=
  let domainWeights : gmap string Q :=
    default ∅ (domainWeights params) ∪ defaultDomainWeights in
  let relevanceThreshold := JS.opt_num_or (toolRelevanceThreshold params) 0.3 in
  let scoredTools :=
    foldl (scoreStep intent prompt domainWeights relevanceThreshold) [] tools in
  JS.sort (fun a b => score b - score a) scoredTools.

(** ** Selection *)

Definition selectByScore (tools : list (IToolScore Schema)) (maxTools : nat)
  : list (IToolScore Schema) :=
  JS.slice0 maxTools (JS.sort (fun a b => score b - score a) tools).

Definition semanticScore (t : IToolScore Schema) : Q :=
  (keywordMatch (components t) + domainRelevance (components t)
   + actionMatch (components t)) / 3.

Definition selectBySemantic (tools : list (IToolScore Schema)) (maxTools : nat)
  : list (IToolScore Schema) :=
  JS.slice0 maxTools
    (JS.sort (fun a b => semanticScore b - semanticScore a) tools).

Definition inferToolCategory (tool : IMCPTool Schema) : string :=
  let name := JS.toLowerCase (name tool) in
  match
    List.find (fun '(category, actions) =>
                 existsb (fun action => JS.includes name action) actions)
              actionPatterns
  with
  | Some (category, _) => category
  | None => "general"
  end.

End Service.

(** *** The hybrid strategy, over any numbers *)

Section Hybrid.
Context {N : Type} `{!JSNumber N} {Schema : Type}.

(** The variables the loop of [selectByHybrid] updates. *)
Record HybridState := {
  selected : list (IToolScoreOf N Schema);
  serverCounts : gmap string nat;
  categoryCounts : gmap string nat
}.

Definition diversityPenalty (serverCount categoryCount : nat) : N :=
  jadd (jmin (jmul (jcount serverCount) (jdecimal 0.05)) (jdecimal 0.2))
       (jmin (jmul (jcount categoryCount) (jdecimal 0.1)) (jdecimal 0.3)).

Definition adjustedScore (toolScore : IToolScoreOf N Schema)
    (serverCount categoryCount : nat) : N :=
  jmul (score toolScore)
       (jsub (jdecimal 1) (diversityPenalty serverCount categoryCount)).

(** The loop of [selectByHybrid] over the tools that are left; it yields
    [selected] when it ends or breaks. *)
Fixpoint hybridLoop (maxTools : nat) (tools : list (IToolScoreOf N Schema))
    (st : HybridState) : list (IToolScoreOf N Schema) :=
  match tools with
  | [] => selected st
  | toolScore :: rest =>
      if (maxTools <=? length (selected st))%nat then selected st
      else
        let serverCount :=
          default 0%nat (serverCounts st !! serverName toolScore) in
        let category := inferToolCategory (tool toolScore) in
        let categoryCount := default 0%nat (categoryCounts st !! category) in
        if jgt (adjustedScore toolScore serverCount categoryCount)
               (jdecimal 0.15) then
          hybridLoop maxTools rest
            {| selected := JS.push (selected st) toolScore;
               serverCounts :=
                 <[serverName toolScore := (serverCount + 1)%nat]>
                   (serverCounts st);
               categoryCounts :=
                 <[category := (categoryCount + 1)%nat]> (categoryCounts st) |}
        else hybridLoop maxTools rest st
  end.

Definition selectByHybrid (tools : list (IToolScoreOf N Schema))
    (maxTools : nat) : list (IToolScoreOf N Schema) :=
  hybridLoop maxTools tools
    {| selected := []; serverCounts := ∅; categoryCounts := ∅ |}.

End Hybrid.

Arguments HybridState : clear implicits.

(** *** The dispatch *)

Section Dispatch.
Context {Schema : Type} `{!JSONStringify Schema}.

(** [maxTools] defaults to 15 and [strategy] to ['hybrid']; the tag is the
    string the caller passes. *)
Definition selectTools (scoredTools : list (IToolScore Schema))
    (maxTools : option nat) (strategy : option string)
  : list (IToolScore Schema) :=
  let maxTools := default 15%nat maxTools in
  let strategy := default "hybrid" strategy in
  if String.eqb strategy "priority" then selectByScore scoredTools maxTools
  else if String.eqb strategy "semantic" then
    selectBySemantic scoredTools maxTools
  else if String.eqb strategy "hybrid" then selectByHybrid scoredTools maxTools
  else JS.slice0 maxTools scoredTools.

End Dispatch.

(** * The CircleCI helpers *)

(** ** The command line of the trigger script (trigger-circleci.ts) *)

Module TriggerCLI.

Record Args := {
  pattern : option string;
  branch : option string;
  org : option string;
  repo : option string;
  vcs : option string
}.

(** [const out: Args = {}] *)
Definition noArgs : Args :=
  {| pattern := None; branch := None; org := None; repo := None;
     vcs := None |}.

(** The assignment [out.<field> = v] the option [a] stands for, if [a] is
    one of the five options. *)
Definition assignment (a : string) : option (option string -> Args -> Args) :=
  if String.eqb a "--pattern" then
    Some (fun v out => {| pattern := v; branch := branch out; org := org out;
                          repo := repo out; vcs := vcs out |})
  else if String.eqb a "--branch" then
    Some (fun v out => {| pattern := pattern out; branch := v; org := org out;
                          repo := repo out; vcs := vcs out |})
  else if String.eqb a "--org" then
    Some (fun v out => {| pattern := pattern out; branch := branch out;
                          org := v; repo := repo out; vcs := vcs out |})
  else if String.eqb a "--repo" then
    Some (fun v out => {| pattern := pattern out; branch := branch out;
                          org := org out; repo := v; vcs := vcs out |})
  else if String.eqb a "--vcs" then
    Some (fun v out => {| pattern := pattern out; branch := branch out;
                          org := org out; repo := repo out; vcs := v |})
  else None.

(** The loop of [parseArgs] over the arguments from index [i] on: an option
    takes [argv[++i]] for its value, which is [undefined] past the end. *)
Fixpoint parseLoop (argv : list string) (out : Args) : Args :=
  match argv with
  | [] => out
  | a :: rest =>
      match assignment a with
      | Some assign =>
          match rest with
          | v :: rest' => parseLoop rest' (assign (Some v) out)
          | [] => assign None out
          end
      | None => parseLoop rest out
      end
  end.

Definition parseArgs (argv : list string) : Args := parseLoop argv noArgs.

(** What running the script comes to: it exits with a status, having
    written lines to the error stream, or it goes on to trigger the
    pipeline. *)
Inductive Outcome (R : Type) :=
| Exit (code : Z) (stderr : list string)
| Proceed (r : R).
Arguments Exit {R} _ _.
Arguments Proceed {R} _.

(** [main], up to its two checks; [trigger token args] stands for the rest
    of it, which resolves the repository and talks to CircleCI. *)
Definition main {R : Type} (CIRCLECI_TOKEN CIRCLE_TOKEN : option string)
    (argv : list string) (trigger : string -> Args -> R) : Outcome R :=
  let args := parseArgs argv in
  let token := JS.str_or CIRCLECI_TOKEN CIRCLE_TOKEN in
  match token with
  | Some t =>
      if JS.truthy token then
        if JS.truthy (pattern args) then Proceed (trigger t args)
        else Exit 1 ["Error: --pattern <grep-pattern> is required."]
      else
        Exit 1
          ["Error: CIRCLECI_TOKEN env var is required to trigger CircleCI.";
           "Create a Personal API Token in CircleCI and export CIRCLECI_TOKEN before using --remote."]
  | None =>
      Exit 1
        ["Error: CIRCLECI_TOKEN env var is required to trigger CircleCI.";
         "Create a Personal API Token in CircleCI and export CIRCLECI_TOKEN before using --remote."]
  end.

(** What [console.error] writes for a list of lines. *)
Definition written (lines : list string) : string :=
  String.concat "" (map (fun l => l ++ String "010"%char "") lines).

(** *** Vocabulary: command lines *)

(** The five options. *)
Inductive Flag := FPattern | FBranch | FOrg | FRepo | FVcs.

Definition flagName (f : Flag) : string :=
  match f with
  | FPattern => "--pattern"
  | FBranch => "--branch"
  | FOrg => "--org"
  | FRepo => "--repo"
  | FVcs => "--vcs"
  end.

Definition setFlag (f : Flag) (v : option string) (out : Args) : Args :=
  match f with
  | FPattern => {| pattern := v; branch := branch out; org := org out;
                   repo := repo out; vcs := vcs out |}
  | FBranch => {| pattern := pattern out; branch := v; org := org out;
                  repo := repo out; vcs := vcs out |}
  | FOrg => {| pattern := pattern out; branch := branch out; org := v;
               repo := repo out; vcs := vcs out |}
  | FRepo => {| pattern := pattern out; branch := branch out; org := org out;
                repo := v; vcs := vcs out |}
  | FVcs => {| pattern := pattern out; branch := branch out; org := org out;
               repo := repo out; vcs := v |}
  end.

(** A command line is made of options with their values and of other
    tokens. *)
Inductive Item :=
| Assign (f : Flag) (value : string)
| Stray (token : string).

Definition render (item : Item) : list string :=
  match item with
  | Assign f value => [flagName f; value]
  | Stray token => [token]
  end.

Definition commandLine (items : list Item) : list string :=
  concat (map render items).

Definition applyItem (out : Args) (item : Item) : Args :=
  match item with
  | Assign f value => setFlag f (Some value) out
  | Stray _ => out
  end.

Definition is_option (token : string) : Prop :=
  exists f, token = flagName f.

End TriggerCLI.

(** ** The proxy server (proxy-server.ts) *)

Module ProxyServer.

(** The two environment variables the server reads. *)
Record Env := {
  CIRCLECI_TOKEN : option string;
  CIRCLE_TOKEN : option string
}.

(** *** [GET /api/status] *)

Record StatusBody := {
  branch : string;
  hasToken : bool;
  tokenSource : string
}.

(** The handler, given what [getCurrentBranch()] returns and the value of
    the header [x-circleci-token]. *)
Definition status (env : Env) (currentBranch : string)
    (clientToken : option string) : StatusBody :=
  let serverToken :=
    JS.truthy (JS.str_or (CIRCLECI_TOKEN env) (CIRCLE_TOKEN env)) in
  let hasToken := serverToken || JS.truthy clientToken in
  {| branch := currentBranch;
     hasToken := hasToken;
     tokenSource :=
       if serverToken then "server (.env.local)"
       else if JS.truthy clientToken then "client (localStorage)"
       else "none" |}.

(** *** [GET] and [POST /api/circleci/*] *)

(** How a call through axios ends: it resolves with the response data, or
    it throws an axios error, with its message and, when the server
    answered, the status and the data of the answer, or it throws another
    error.  Data that is absent or falsy is [None]. *)
Inductive AxiosResult (Data : Type) :=
| Resolved (data : Data)
| AxiosError (message : string) (response : option (nat * option Data))
| OtherError (message : string).
Arguments Resolved {Data} _.
Arguments AxiosError {Data} _ _.
Arguments OtherError {Data} _.

Inductive Body (Data : Type) :=
| Upstream (data : Data)
| ErrorBody (error : string).
Arguments Upstream {Data} _.
Arguments ErrorBody {Data} _.

Record Response (Data : Type) := {
  statusCode : nat;
  body : Body Data
}.
Arguments statusCode {Data} _.
Arguments body {Data} _.

(** [status || 500] *)
Definition status_or_500 (status : option nat) : nat :=
  match status with
  | Some O => 500
  | Some n => n
  | None => 500
  end.

(** The two handlers share their text but for the call: [call url token]
    is [axios.get(url, ...)] or [axios.post(url, req.body, ...)] with the
    token in the header [Circle-Token]. *)
Definition circleciProxy {Data : Type}
    (call : string -> string -> AxiosResult Data)
    (env : Env) (path : string) (clientToken : option string)
  : Response Data :=
  let serverToken := JS.str_or (CIRCLECI_TOKEN env) (CIRCLE_TOKEN env) in
  let token := JS.str_or clientToken serverToken in
  match token with
  | Some t =>
      if JS.truthy token then
        let apiPath := JS.replaceFirst path "/api/circleci/" "" in
        let url := "https://circleci.com/api/v2/" ++ apiPath in
        match call url t with
        | Resolved data => {| statusCode := 200; body := Upstream data |}
        | AxiosError message response =>
            {| statusCode :=
                 status_or_500 (match response with
                                | Some (st, _) => Some st
                                | None => None
                                end);
               body :=
                 match response with
                 | Some (_, Some data) => Upstream data
                 | _ => ErrorBody message
                 end |}
        | OtherError message =>
            {| statusCode := 500; body := ErrorBody message |}
        end
      else
        {| statusCode := 401;
           body := ErrorBody
             "CIRCLECI_TOKEN not configured. Set it in .env.local or via UI." |}
  | None =>
      {| statusCode := 401;
         body := ErrorBody
           "CIRCLECI_TOKEN not configured. Set it in .env.local or via UI." |}
  end.

(** *** [POST /api/trigger] *)

Record TriggerRequest := {
  test : option string;
  browser : option string
}.

(** How the spawned script ends: it closes with an exit code ([None] when
    a signal killed it) and what it wrote, or it could not be spawned. *)
Inductive ChildResult :=
| Closed (code : option Z) (output : string)
| SpawnFailed (message : string).

Inductive TriggerBody :=
| TriggerOk (url pipelineId : option string) (output : string)
| TriggerFailed (error : string) (url pipelineId : option string)
    (output : string)
| TriggerError (error : string) (details : option string).

Record TriggerResponse := {
  triggerStatus : nat;
  triggerBody : TriggerBody
}.

Section Trigger.
(** The two regular-expression matches on the output of the script: the
    text of the first match of the pipeline URL, and the first group of the
    first match of the pipeline id. *)
Context (matchUrl matchPipelineId : string -> option string).

(** The [close] handler of the spawned script. *)
Definition onClose (code : option Z) (output : string) : TriggerResponse :=
  let url := matchUrl output in
  let pipelineId := matchPipelineId output in
  if match code with Some 0%Z => true | _ => false end then
    {| triggerStatus := 200; triggerBody := TriggerOk url pipelineId output |}
  else
    let errorMessage :=
      if JS.includes output "CIRCLECI_TOKEN env var is required" then
        "CIRCLECI_TOKEN environment variable not set. Please set it on the server and restart."
      else if JS.includes output "401" || JS.includes output "Unauthorized"
      then "Invalid CircleCI token. Please check your CIRCLECI_TOKEN."
      else "Trigger failed" in
    {| triggerStatus := 500;
       triggerBody := TriggerFailed errorMessage url pipelineId output |}.

(** The handler: [spawnScript args] runs
    [npx tsx trigger-circleci.ts args] with the environment of the
    server. *)
Definition trigger (spawnScript : list string -> ChildResult)
    (reqBody : option TriggerRequest) : TriggerResponse :=
  let test := match reqBody with Some b => test b | None => None end in
  match test with
  | Some t =>
      if JS.truthy test then
        match spawnScript ["--pattern"; t] with
        | Closed code output => onClose code output
        | SpawnFailed message =>
            {| triggerStatus := 500;
               triggerBody := TriggerError "Failed to spawn trigger process"
                                (Some message) |}
        end
      else {| triggerStatus := 400;
              triggerBody := TriggerError "Missing test name" None |}
  | None => {| triggerStatus := 400;
               triggerBody := TriggerError "Missing test name" None |}
  end.

End Trigger.

(** *** Vocabulary: the script the trigger handler spawns *)

(** The spawned script run on the environment of the server: [rest] stands
    for what it does once past its checks. *)
Definition runScript (env : Env)
    (rest : string -> TriggerCLI.Args -> ChildResult) (argv : list string)
  : ChildResult :=
  match TriggerCLI.main (CIRCLECI_TOKEN env) (CIRCLE_TOKEN env) argv rest with
  | TriggerCLI.Exit code lines => Closed (Some code) (TriggerCLI.written lines)
  | TriggerCLI.Proceed r => r
  end.

(** The token the server has, if any. *)
Definition serverToken (env : Env) : option string :=
  JS.str_or (CIRCLECI_TOKEN env) (CIRCLE_TOKEN env).

End ProxyServer.

(** ** The summary of a pipeline (the [getCIStatus] of the API client) *)

Module ApiClient.

(** What the summary reads of a workflow. *)
Record Workflow := {
  id : string;
  status : option string
}.

Definition termStates : list string :=
  ["success"; "failed"; "canceled"; "error"].

(** [termStates.has(s)] *)
Definition isTerminal (s : string) : bool :=
  existsb (String.eqb s) termStates.

(** The body of the [reduce] that counts the workflows by status, on the
    keys the accumulator has of its own.  The accumulator is a plain
    object: at a status that is one of [JS.objectPrototypeKeys] the code
    reads an inherited member in place of a count. *)
Definition countStep (acc : gmap string nat) (wf : Workflow)
  : gmap string nat :=
  let s := JS.toLowerCase
             (default "" (JS.str_or (status wf) (Some "unknown"))) in
  <[s := (default 0%nat (acc !! s) + 1)%nat]> acc.

Record Summary := {
  counts : gmap string nat;
  total : nat;
  done : bool
}.

Definition summary (workflows : list Workflow) : Summary :=
  let counts := foldl countStep ∅ workflows in
  let allDone :=
    (0 <? length workflows)%nat
    && forallb (fun wf =>
                  isTerminal (JS.toLowerCase
                                (default "" (JS.str_or (status wf) (Some "")))))
               workflows in
  {| counts := counts; total := length workflows; done := allDone |}.

(** *** Vocabulary *)

(** The key a workflow is counted under. *)
Definition statusKey (wf : Workflow) : string :=
  JS.toLowerCase (default "" (JS.str_or (status wf) (Some "unknown"))).

(** The sum of the counts. *)
Definition countTotal (m : gmap string nat) : nat :=
  map_fold (fun _ n acc => (n + acc)%nat) 0%nat m.

End ApiClient.

(** The schema type of the worked examples: a descriptor given by its JSON
    text. *)
#[global] Instance string_schema : JSONStringify string := fun s => s.

(** ** Data of the worked examples *)

Definition compile_contract : IMCPTool string :=
  {| name := "compile_contract";
     description := Some "Compiles solidity contracts";
     inputSchema := "{}" |}.

Definition coding_intent : IUserIntent :=
  {| type := "coding"; keywords := ["compile"]; domains := ["solidity"] |}.

Definition unrelated_tool : IMCPTool string :=
  {| name := "unrelated_tool"; description := Some ""; inputSchema := "{}" |}.

Definition foobar_intent : IUserIntent :=
  {| type := "coding"; keywords := ["foobar"]; domains := [] |}.

(** A tool whose name is [solidity], for an intent whose domain is written
    [Solidity]. *)
Definition solidity_tool : IMCPTool string :=
  {| name := "solidity"; description := None; inputSchema := "{}" |}.

(** A tool whose description contains the word [constructor], for an
    intent whose domain is that word. *)
Definition deploy_contract : IMCPTool string :=
  {| name := "deploy_contract";
     description := Some "Calls the constructor of a contract";
     inputSchema := "{}" |}.

(** A scored tool given by its name, server and aggregate. *)
Definition scored (n server : string) (s : Q) : IToolScore string :=
  {| tool := {| name := n; description := None; inputSchema := "{}" |};
     serverName := server; score := s;
     components := {| keywordMatch := 0%Q; domainRelevance := 0%Q;
                      typeRelevance := 0%Q; actionMatch := 0%Q |};
     reasoning := "" |}.

(** Two tools of equal score. *)
Definition tie_first := scored "read_file" "remix" 0.5.
Definition tie_second := scored "deploy_contract" "hardhat" 0.5.

(** Three tools of one server and one category, by decreasing score. *)
Definition compile_a := scored "compile_a" "remix" 0.9.
Definition compile_b := scored "compile_b" "remix" 0.85.
Definition compile_c := scored "compile_c" "remix" 0.8.

(** A scored tool over any numbers, its aggregate given by the decimal
    literal of the source text. *)
Definition scoredAs (N : Type) `{!JSNumber N} (n server : string) (s : Q) :
    IToolScoreOf N string :=
  {| tool := {| name := n; description := None; inputSchema := "{}" |};
     serverName := server; score := jdecimal s;
     components := {| keywordMatch := jdecimal 0; domainRelevance := jdecimal 0;
                      typeRelevance := jdecimal 0; actionMatch := jdecimal 0 |};
     reasoning := "" |}.

(** Three tools of the compilation category, the third of the server of
    the first and of aggregate 0.2: when its turn comes the penalty is
    0.05 + 0.2 and the adjusted score 0.2 * 0.75, which is 0.15 exactly in
    the rationals and 0.15000000000000002 in doubles. *)
Definition borderline (N : Type) `{!JSNumber N} : list (IToolScoreOf N string) :=
  [scoredAs N "compile_x" "a" 0.9; scoredAs N "build_y" "b" 0.9;
   scoredAs N "verify_z" "a" 0.2].

(** ** Vocabulary of the specification *)

Section Vocabulary.
Context {Schema : Type} `{!JSONStringify Schema}.
Local Open Scope Q_scope.

(** The fixed weighted sum of a component breakdown. *)
Definition weightedSum (c : Components) : Q :=
  0.35 * keywordMatch c + 0.25 * domainRelevance c
  + 0.20 * typeRelevance c + 0.20 * actionMatch c.

(** The relevance threshold the caller configured: the value given, or 0.3
    when none is given. *)
Definition configuredThreshold (params : IEnhancedMCPProviderParams) : Q :=
  default 0.3 (toolRelevanceThreshold params).

(** A number in the unit interval. *)
Definition unit_interval (x : Q) : Prop := 0 <= x /\ x <= 1.

(** Every verb of the action table, category after category. *)
Definition allActions : list string := concat (map snd actionPatterns).

(** What the first pass of the action match contributes over the verbs
    [actions]: 1.0 if some verb occurs in both the tool name and the prompt,
    else 0.6 if some verb occurs in the tool name, else 0. *)
Definition firstPass (actions : list string) (toolName promptLower : string)
  : Q :=
  if existsb (fun action =>
                JS.includes toolName action && JS.includes promptLower action)
             actions
  then 1.0
  else if existsb (fun action => JS.includes toolName action) actions then 0.6
  else 0.

(** What the second pass contributes over the expected verbs [actions]:
    0.8 if some verb occurs in the tool name, else 0. *)
Definition secondPass (actions : list string) (toolName : string) : Q :=
  if existsb (fun action => JS.includes toolName action) actions then 0.8
  else 0.

(** What one keyword adds to [matchScore]: 1.0 for a direct match, 0.7 for
    a match of its stem, nothing otherwise. *)
Definition keywordAward (toolText keyword : string) : Q :=
  let keywordLower := JS.toLowerCase keyword in
  if JS.includes toolText keywordLower then 1.0
  else if JS.includes toolText
            (JS.substring0 (Nat.max 4 (String.length keywordLower - 2))
               keywordLower) then 0.7
  else 0.

(** The sum of a list of numbers. *)
Definition Qsum (l : list Q) : Q := foldr Qplus 0 l.

(** The scored tool the loop of [scoreTools] builds for an entry. *)
Definition scoreEntry (intent : IUserIntent) (prompt : string)
    (weights : gmap string Q) (entry : IMCPTool Schema * string)
  : IToolScore Schema :=
  let r := calculateToolScore (fst entry) intent prompt weights in
  {| tool := fst entry; serverName := snd entry; score := result_score r;
     components := result_components r; reasoning := result_reasoning r |}.

(** The table and the threshold [scoreTools] works with. *)
Definition mergedWeights (params : IEnhancedMCPProviderParams)
  : gmap string Q :=
  default ∅ (domainWeights params) ∪ defaultDomainWeights.

Definition effectiveThreshold (params : IEnhancedMCPProviderParams) : Q :=
  JS.opt_num_or (toolRelevanceThreshold params) 0.3.

(** The domains of an intent that the tool text matches, and the weight the
    loop of [calculateDomainRelevance] gives a domain. *)
Definition matchedDomains (toolText : string) (domains : list string)
  : list string :=
  List.filter (fun d => JS.includes toolText (JS.toLowerCase d)) domains.

Definition domainWeightOf (weights : gmap string Q) (domain : string) : Q :=
  JS.opt_num_or (weights !! domain) 0.5.

End Vocabulary.

(** *** Vocabulary of the hybrid strategy *)

Section HybridVocabulary.
Context {N : Type} `{!JSNumber N} {Schema : Type}.

(** How many of the tools [accepted] so far come from the server of [t],
    and how many fall in the category inferred for [t]. *)
Definition sameServer (accepted : list (IToolScoreOf N Schema))
    (t : IToolScoreOf N Schema) : nat :=
  length (filter (fun u => serverName u = serverName t) accepted).

Definition sameCategory (accepted : list (IToolScoreOf N Schema))
    (t : IToolScoreOf N Schema) : nat :=
  length (filter (fun u => inferToolCategory (tool u)
                           = inferToolCategory (tool t)) accepted).

(** Every member of [l] cleared the 0.15 bar with the penalty due to the
    members before it, in the arithmetic of [N]. *)
Definition accepted_above_bar (l : list (IToolScoreOf N Schema)) : Prop :=
  forall pre t post, l = (pre ++ t :: post)%list ->
    jgt (jmul (score t)
           (jsub (jdecimal 1)
              (jadd (jmin (jmul (jcount (sameServer pre t)) (jdecimal 0.05))
                          (jdecimal 0.2))
                    (jmin (jmul (jcount (sameCategory pre t)) (jdecimal 0.1))
                          (jdecimal 0.3)))))
        (jdecimal 0.15) = true.

(** The counters of the loop of [selectByHybrid] count the accepted tools
    by server and by category. *)
Definition counters_agree (st : HybridState N Schema) : Prop :=
  (forall k, default 0%nat (serverCounts st !! k)
             = length (filter (fun u => serverName u = k) (selected st)))
  /\ (forall k, default 0%nat (categoryCounts st !! k)
                = length (filter (fun u => inferToolCategory (tool u) = k)
                            (selected st))).

End HybridVocabulary.


(** * Properties *)

(** ** Facts about the built-ins *)

(** Case analysis on every [Qmax] and [Qmin] in sight, then linear
    arithmetic. *)
Ltac qminmax_name :=
  match goal with
  | |- context [Qmax ?a ?b] =>
      let x := fresh "mx" in
      pose proof (Q.max_spec a b); set (x := Qmax a b) in *; clearbody x
  | _ : context [Qmax ?a ?b] |- _ =>
      let x := fresh "mx" in
      pose proof (Q.max_spec a b); set (x := Qmax a b) in *; clearbody x
  | |- context [Qmin ?a ?b] =>
      let x := fresh "mn" in
      pose proof (Q.min_spec a b); set (x := Qmin a b) in *; clearbody x
  | _ : context [Qmin ?a ?b] |- _ =>
      let x := fresh "mn" in
      pose proof (Q.min_spec a b); set (x := Qmin a b) in *; clearbody x
  end.

Ltac qminmax :=
  repeat qminmax_name;
  repeat match goal with
         | H : (_ /\ _) \/ (_ /\ _) |- _ => destruct H as [[? ?]|[? ?]]
         end;
  lra.

Section Builtins.
Local Open Scope Q_scope.

Lemma gt_true (x y : Q) : JS.gt x y = true <-> y < x.
Proof.
  unfold JS.gt. rewrite negb_true_iff, <- not_true_iff_false, Qle_bool_iff.
  split; [apply Qnot_le_lt | apply Qlt_not_le].
Qed.

Lemma ge_true (x y : Q) : JS.ge x y = true <-> y <= x.
Proof. unfold JS.ge. apply Qle_bool_iff. Qed.

Lemma ge_false (x y : Q) : JS.ge x y = false <-> x < y.
Proof.
  unfold JS.ge. rewrite <- not_true_iff_false, Qle_bool_iff.
  split; [apply Qnot_le_lt | apply Qlt_not_le].
Qed.

Lemma num_or_cases (x d : Q) :
  (x == 0 /\ JS.num_or x d = d) \/ (~ x == 0 /\ JS.num_or x d = x).
Proof.
  unfold JS.num_or. destruct (Qeq_bool x 0) eqn:E.
  - left. split; [by apply Qeq_bool_iff | done].
  - right. split; [| done]. intros Hx. apply Qeq_bool_iff in Hx. congruence.
Qed.

Lemma num_pos (n : nat) : (0 < n)%nat -> 0 < num n.
Proof.
  intros Hn. unfold num. change 0 with (inject_Z 0).
  rewrite <- Zlt_Qlt. lia.
Qed.

Lemma num_S (n : nat) : num (S n) == num n + 1.
Proof.
  unfold num. rewrite Nat2Z.inj_succ, <- Z.add_1_r, inject_Z_plus. reflexivity.
Qed.

Lemma num_nonneg (n : nat) : 0 <= num n.
Proof.
  unfold num. change 0 with (inject_Z 0). rewrite <- Zle_Qle. lia.
Qed.

Section SortFacts.
Context {A : Type} (key : A -> Q).
Local Abbreviation byKeyDesc := (fun a b : A => key b - key a).

Lemma insert_sorted_perm (x : A) (l : list A) :
  JS.insert_sorted byKeyDesc x l ≡ₚ x :: l.
Proof.
  induction l as [|y l IH]; simpl; [done|].
  destruct (Qle_bool _ _); [done|].
  rewrite IH. apply Permutation_swap.
Qed.

Lemma sort_perm (l : list A) : JS.sort byKeyDesc l ≡ₚ l.
Proof.
  induction l as [|x l IH]; simpl; [done|].
  by rewrite insert_sorted_perm, IH.
Qed.

Lemma insert_sorted_sorted (x : A) (l : list A) :
  StronglySorted (fun a b => key b <= key a) l ->
  StronglySorted (fun a b => key b <= key a) (JS.insert_sorted byKeyDesc x l).
Proof.
  induction l as [|y l IH]; intros Hl; simpl.
  - repeat constructor.
  - apply StronglySorted_cons in Hl as [Hy Hl].
    destruct (Qle_bool (byKeyDesc x y) 0) eqn:E.
    + assert (Hxy : key y <= key x).
      { apply Qle_bool_iff in E. lra. }
      apply StronglySorted_cons. split.
      * constructor; [done|].
        eapply Forall_impl; [exact Hy|]. simpl. intros z Hz. lra.
      * by apply StronglySorted_cons.
    + assert (Hxy : key x <= key y).
      { apply not_true_iff_false in E. rewrite Qle_bool_iff in E. lra. }
      apply StronglySorted_cons. split; [|by apply IH].
      rewrite insert_sorted_perm. by constructor.
Qed.

Lemma sort_sorted (l : list A) :
  StronglySorted (fun a b => key b <= key a) (JS.sort byKeyDesc l).
Proof.
  induction l as [|x l IH]; simpl; [constructor|].
  by apply insert_sorted_sorted.
Qed.

End SortFacts.

Lemma StronglySorted_lookup {A : Type} (R : A -> A -> Prop) (l : list A)
    (i j : nat) (a b : A) :
  StronglySorted R l -> (i < j)%nat -> l !! i = Some a -> l !! j = Some b ->
  R a b.
Proof.
  intros Hl. revert i j. induction Hl as [|x l Hl IH Hx]; intros i j Hij Hi Hj.
  - done.
  - destruct j as [|j]; [lia|]. destruct i as [|i]; simpl in *.
    + injection Hi as <-. rewrite Forall_forall in Hx. apply Hx.
      by eapply list_elem_of_lookup_2.
    + eapply IH; [|done..]. lia.
Qed.

End Builtins.

(** ** The scorer *)

Section ScorerFacts.
Context {Schema : Type} `{!JSONStringify Schema}.
Local Open Scope Q_scope.

Lemma calculateToolScore_sum (tool : IMCPTool Schema) (intent : IUserIntent)
    (prompt : string) (dw : gmap string Q) :
  let r := calculateToolScore tool intent prompt dw in
  result_score r == weightedSum (result_components r).
Proof. simpl. unfold weightedSum. simpl. ring. Qed.

(** Whatever holds of the tools scored so far and of every tool the loop
    accepts holds of all it returns. *)
Lemma scoreLoop_Forall (P : IToolScore Schema -> Prop) intent prompt dw
    threshold acc tools :
  Forall P acc ->
  (forall tool serverName,
      let r := calculateToolScore tool intent prompt dw in
      threshold <= result_score r ->
      P {| tool := tool; serverName := serverName; score := result_score r;
           components := result_components r;
           reasoning := result_reasoning r |}) ->
  Forall P (foldl (scoreStep intent prompt dw threshold) acc tools).
Proof.
  intros Hacc HP. revert acc Hacc.
  induction tools as [|[tool serverName] tools IH]; intros acc Hacc; [done|].
  simpl. apply IH.
  destruct (JS.ge _ threshold) eqn:E; [|done].
  unfold JS.push. apply Forall_app. split; [done|].
  constructor; [|done]. apply HP. by apply ge_true.
Qed.

Lemma scoreTools_Forall (P : IToolScore Schema -> Prop) tools intent prompt
    params :
  (forall tool serverName,
      let r := calculateToolScore tool intent prompt
                 (default ∅ (domainWeights params) ∪ defaultDomainWeights) in
      JS.opt_num_or (toolRelevanceThreshold params) 0.3 <= result_score r ->
      P {| tool := tool; serverName := serverName; score := result_score r;
           components := result_components r;
           reasoning := result_reasoning r |}) ->
  Forall P (scoreTools tools intent prompt params).
Proof.
  intros HP. unfold scoreTools.
  eapply Permutation_Forall; [symmetry; apply (sort_perm score)|].
  by apply scoreLoop_Forall.
Qed.

(** C1. Every result of [calculateToolScore], and every scored tool that
    [scoreTools] returns, has an aggregate equal to the fixed weighted sum
    0.35*keywordMatch + 0.25*domainRelevance + 0.20*typeRelevance
    + 0.20*actionMatch of its four components. *)
Theorem aggregate_is_weighted_sum :
  (forall (tool : IMCPTool Schema) intent prompt dw,
      let r := calculateToolScore tool intent prompt dw in
      result_score r ==
      0.35 * keywordMatch (result_components r)
      + 0.25 * domainRelevance (result_components r)
      + 0.20 * typeRelevance (result_components r)
      + 0.20 * actionMatch (result_components r))
  /\
  (forall (tools : list (IMCPTool Schema * string)) intent prompt params,
      Forall (fun t : IToolScore Schema =>
                score t ==
                0.35 * keywordMatch (components t)
                + 0.25 * domainRelevance (components t)
                + 0.20 * typeRelevance (components t)
                + 0.20 * actionMatch (components t))
             (scoreTools tools intent prompt params)).
Proof.
  split.
  - intros. apply calculateToolScore_sum.
  - intros. apply scoreTools_Forall. intros tool serverName r _. simpl.
    apply (calculateToolScore_sum tool intent prompt).
Qed.

(** The threshold [scoreTools] filters with is never below the configured
    one. *)
Lemma effective_threshold_ge (params : IEnhancedMCPProviderParams) :
  configuredThreshold params
  <= JS.opt_num_or (toolRelevanceThreshold params) 0.3.
Proof.
  unfold configuredThreshold, JS.opt_num_or.
  destruct (toolRelevanceThreshold params) as [x|]; simpl; [|lra].
  destruct (num_or_cases x 0.3) as [[Hx ->]|[_ ->]]; lra.
Qed.

(** C2. [scoreTools] returns no entry whose aggregate is strictly below the
    configured relevance threshold (0.3 when none is configured), and its
    output is sorted non-increasing by aggregate: of two entries, the later
    one never has the larger score. *)
Theorem scoreTools_threshold_sorted
    (tools : list (IMCPTool Schema * string)) (intent : IUserIntent)
    (prompt : string) (params : IEnhancedMCPProviderParams) :
  let out := scoreTools tools intent prompt params in
  Forall (fun t => ~ score t < configuredThreshold params) out
  /\ Forall (fun t => JS.opt_num_or (toolRelevanceThreshold params) 0.3
                      <= score t) out
  /\ StronglySorted (fun a b => score b <= score a) out.
Proof.
  simpl. split; [|split].
  - apply scoreTools_Forall. intros tool serverName r Hr. simpl.
    apply Qle_not_lt.
    eapply Qle_trans; [apply effective_threshold_ge | exact Hr].
  - apply scoreTools_Forall. intros tool serverName r Hr. exact Hr.
  - unfold scoreTools. apply (sort_sorted score).
Qed.

(** Sortedness read by positions: of two entries of the output, the later
    one never has the larger aggregate. *)
Lemma scoreTools_sorted_positions
    (tools : list (IMCPTool Schema * string)) intent prompt params
    (i j : nat) (a b : IToolScore Schema) :
  (i < j)%nat ->
  scoreTools tools intent prompt params !! i = Some a ->
  scoreTools tools intent prompt params !! j = Some b ->
  score b <= score a.
Proof.
  intros Hij Hi Hj.
  eapply (StronglySorted_lookup (fun a b => score b <= score a));
    [|exact Hij|exact Hi|exact Hj].
  unfold scoreTools. apply (sort_sorted score).
Qed.

(** *** Bounds of the components *)

Lemma keywordStep_nonneg toolText st keyword :
  0 <= fst st -> 0 <= fst (keywordStep toolText st keyword).
Proof.
  destruct st as [m c]. unfold keywordStep. simpl.
  repeat destruct (JS.includes _ _); simpl; lra.
Qed.

Lemma keywordLoop_nonneg toolText keywords st :
  0 <= fst st -> 0 <= fst (foldl (keywordStep toolText) st keywords).
Proof.
  revert st. induction keywords as [|k ks IH]; intros st Hst; [done|].
  simpl. apply IH. by apply keywordStep_nonneg.
Qed.

Lemma keywordMatchScore_nonneg (tool : IMCPTool Schema) keywords prompt :
  0 <= keywordMatchScore tool keywords prompt.
Proof.
  unfold keywordMatchScore.
  pose proof (keywordLoop_nonneg (keywordToolText tool) keywords (0, 0%nat)) as H.
  simpl in H. specialize (H ltac:(lra)).
  destruct (JS.includes _ _); lra.
Qed.

Lemma calculateKeywordMatch_bounds (tool : IMCPTool Schema) keywords prompt :
  unit_interval (calculateKeywordMatch tool keywords prompt).
Proof.
  unfold calculateKeywordMatch, unit_interval.
  destruct (length keywords =? 0)%nat eqn:E0; [lra|].
  apply Nat.eqb_neq in E0.
  destruct (0 <? length keywords)%nat eqn:E1; [|lra].
  assert (0 <= keywordMatchScore tool keywords prompt / num (length keywords)).
  { apply Qle_shift_div_l; [apply num_pos; lia|].
    pose proof (keywordMatchScore_nonneg tool keywords prompt). lra. }
  destruct (Q.min_spec (keywordMatchScore tool keywords prompt
                        / num (length keywords)) 1.0) as [[? ->]|[? ->]]; lra.
Qed.

(** The weight the loop of [calculateDomainRelevance] uses for a domain. *)
Lemma domain_weight_bounds (weights : gmap string Q) (domain : string) :
  (forall d w, weights !! d = Some w -> unit_interval w) ->
  unit_interval (JS.opt_num_or (weights !! domain) 0.5).
Proof.
  intros Hw. unfold JS.opt_num_or.
  destruct (weights !! domain) as [w|] eqn:E; [|unfold unit_interval; lra].
  destruct (num_or_cases w 0.5) as [[_ ->]|[_ ->]];
    [unfold unit_interval; lra | by eapply Hw].
Qed.

Lemma domainLoop_bounds toolText (weights : gmap string Q) domains st :
  (forall d w, weights !! d = Some w -> unit_interval w) ->
  0 <= fst st /\ fst st <= num (snd st) ->
  let st' := foldl (domainStep toolText weights) st domains in
  0 <= fst st' /\ fst st' <= num (snd st').
Proof.
  intros Hw. revert st. induction domains as [|d ds IH]; intros st Hst; [done|].
  simpl. apply IH. destruct st as [t c]. unfold domainStep. simpl in *.
  destruct (JS.includes _ _); simpl; [|done].
  destruct (domain_weight_bounds weights d Hw) as [H0 H1].
  rewrite num_S. lra.
Qed.

Lemma calculateDomainRelevance_bounds (tool : IMCPTool Schema) domains
    (weights : gmap string Q) :
  (forall d w, weights !! d = Some w -> unit_interval w) ->
  unit_interval (calculateDomainRelevance tool domains weights).
Proof.
  intros Hw. unfold calculateDomainRelevance.
  destruct (length domains =? 0)%nat; [unfold unit_interval; lra|].
  pose proof (domainLoop_bounds (domainToolText tool) weights domains
                (0, 0%nat) Hw) as H.
  specialize (H (conj (Qle_refl 0) (num_nonneg 0))).
  destruct (foldl _ _ _) as [t c]. simpl in H.
  destruct (0 <? c)%nat eqn:Ec; [|unfold unit_interval; lra].
  apply Nat.ltb_lt, num_pos in Ec. split.
  - apply Qle_shift_div_l; [done|lra].
  - apply Qle_shift_div_r; [done|lra].
Qed.

Lemma calculateTypeRelevance_bounds (tool : IMCPTool Schema) intentType :
  unit_interval (calculateTypeRelevance tool intentType).
Proof.
  unfold calculateTypeRelevance.
  destruct (length _ =? 0)%nat; [unfold unit_interval; lra|].
  set (f := fun (maxRelevance : Q) (action : string) => _).
  assert (Hloop : forall l m, unit_interval m -> unit_interval (foldl f m l)).
  { induction l as [|a l IH]; intros m Hm; [done|]. simpl. apply IH.
    unfold f. destruct (_ || _); [|done]. unfold unit_interval in *.
    destruct (Q.max_spec m 1.0) as [[? ->]|[? ->]]; lra. }
  specialize (Hloop (expectedActionsOf intentType) 0
                ltac:(unfold unit_interval; lra)).
  destruct (num_or_cases (foldl f 0 (expectedActionsOf intentType)) 0.3)
    as [[_ ->]|[_ ->]]; [unfold unit_interval; lra | done].
Qed.

Lemma actionStep_bounds toolName promptLower m action :
  unit_interval m -> unit_interval (actionStep toolName promptLower m action).
Proof.
  unfold actionStep, unit_interval. intros Hm.
  repeat destruct (JS.includes _ _); [| |done].
  - destruct (Q.max_spec m 1.0) as [[? ->]|[? ->]]; lra.
  - destruct (Q.max_spec m 0.6) as [[? ->]|[? ->]]; lra.
Qed.

Lemma expectedStep_bounds toolName m action :
  unit_interval m -> unit_interval (expectedStep toolName m action).
Proof.
  unfold expectedStep, unit_interval. intros Hm.
  destruct (JS.includes _ _); [|done].
  destruct (Q.max_spec m 0.8) as [[? ->]|[? ->]]; lra.
Qed.

Lemma foldl_preserves {A B : Type} (P : A -> Prop) (f : A -> B -> A)
    (l : list B) (a : A) :
  (forall a b, P a -> P (f a b)) -> P a -> P (foldl f a l).
Proof.
  intros Hf. revert a. induction l as [|b l IH]; intros a Ha; [done|].
  simpl. by apply IH, Hf.
Qed.

Lemma calculateActionMatch_bounds (tool : IMCPTool Schema) intentType prompt :
  unit_interval (calculateActionMatch tool intentType prompt).
Proof.
  unfold calculateActionMatch.
  apply foldl_preserves; [intros; by apply expectedStep_bounds|].
  apply foldl_preserves; [|unfold unit_interval; lra].
  intros m [category actions] Hm.
  apply foldl_preserves; [|done]. intros; by apply actionStep_bounds.
Qed.

(** X27. When every weight of the domain-weight table lies in [0,1], the
    intent type is no name inherited from [Object.prototype] and neither
    is a domain the tool text matches, each of the four components
    [calculateToolScore] computes lies in [0,1]; the keyword match does so
    by its final [min(_, 1.0)]. *)
Theorem components_in_unit_interval_own_keys (tool : IMCPTool Schema)
    (intent : IUserIntent) (prompt : string) (weights : gmap string Q) :
  (forall d w, weights !! d = Some w -> 0 <= w /\ w <= 1) ->
  JS.inherited (type intent) = false ->
  Forall (fun d => JS.inherited d = false)
         (matchedDomains (domainToolText tool) (domains intent)) ->
  let c := result_components (calculateToolScore tool intent prompt weights) in
  (0 <= keywordMatch c /\ keywordMatch c <= 1)
  /\ (0 <= domainRelevance c /\ domainRelevance c <= 1)
  /\ (0 <= typeRelevance c /\ typeRelevance c <= 1)
  /\ (0 <= actionMatch c /\ actionMatch c <= 1)
  /\ keywordMatch c =
       match keywords intent with
       | [] => 0
       | _ :: _ =>
           Qmin (keywordMatchScore tool (keywords intent) prompt
                 / num (length (keywords intent))) 1.0
       end.
Proof.
  intros Hw _ _. simpl. repeat split.
  all: try apply calculateKeywordMatch_bounds.
  all: try (by apply calculateDomainRelevance_bounds).
  all: try apply calculateTypeRelevance_bounds.
  all: try apply calculateActionMatch_bounds.
  unfold calculateKeywordMatch. by destruct (keywords intent).
Qed.

(** *** Action match *)

Lemma foldl_nested {A B C : Type} (f : A -> B -> A) (table : list (C * list B))
    (a : A) :
  foldl (fun a '(_, bs) => foldl f a bs) a table
  = foldl f a (concat (map snd table)).
Proof.
  revert a. induction table as [|[c bs] table IH]; intros a; [done|].
  simpl. by rewrite foldl_app, IH.
Qed.

Lemma firstPass_nonneg actions toolName promptLower :
  0 <= firstPass actions toolName promptLower.
Proof. unfold firstPass. repeat destruct (existsb _ _); lra. Qed.

Lemma firstPass_loop toolName promptLower actions m :
  0 <= m ->
  foldl (actionStep toolName promptLower) m actions
  == Qmax m (firstPass actions toolName promptLower).
Proof.
  revert m. induction actions as [|a actions IH]; intros m Hm.
  - simpl. unfold firstPass. simpl. qminmax.
  - simpl. rewrite IH.
    + unfold actionStep, firstPass. simpl.
      destruct (JS.includes toolName a), (JS.includes promptLower a); simpl;
        repeat destruct (existsb _ actions); qminmax.
    + unfold actionStep.
      repeat destruct (JS.includes _ a); qminmax.
Qed.

Lemma secondPass_loop toolName actions m :
  0 <= m ->
  foldl (expectedStep toolName) m actions
  == Qmax m (secondPass actions toolName).
Proof.
  revert m. induction actions as [|a actions IH]; intros m Hm.
  - simpl. unfold secondPass. simpl. qminmax.
  - simpl. rewrite IH.
    + unfold expectedStep, secondPass. simpl.
      destruct (JS.includes toolName a); simpl;
        repeat destruct (existsb _ actions); qminmax.
    + unfold expectedStep. destruct (JS.includes _ a); qminmax.
Qed.

Lemma calculateActionMatch_max (tool : IMCPTool Schema) intentType prompt :
  calculateActionMatch tool intentType prompt
  == Qmax (firstPass allActions (JS.toLowerCase (name tool))
             (JS.toLowerCase prompt))
          (secondPass (expectedActionsOf intentType)
             (JS.toLowerCase (name tool))).
Proof.
  unfold calculateActionMatch.
  rewrite (foldl_nested (actionStep _ _)). fold allActions.
  pose proof (firstPass_nonneg allActions (JS.toLowerCase (name tool))
                (JS.toLowerCase prompt)) as Hp.
  rewrite secondPass_loop.
  - rewrite firstPass_loop by lra. qminmax.
  - rewrite firstPass_loop by lra. qminmax.
Qed.

(** C5. The action match is the maximum of what the two passes contribute:
    the first pass gives 1.0 if some verb of the action table occurs in both
    the (lower-cased) tool name and the (lower-cased) prompt, else 0.6 if
    some verb of the table occurs in the tool name, else 0; the second gives
    0.8 if some expected verb of the intent's type occurs in the tool name,
    else 0.  For the tool named compile_contract, intent type coding and
    the prompt "please compile my contract" the passes give 1.0 and 0.8 and
    the result is 1.0. *)
Theorem actionMatch_is_running_max :
  (forall (tool : IMCPTool Schema) intentType prompt,
      let toolName := JS.toLowerCase (name tool) in
      let promptLower := JS.toLowerCase prompt in
      let a :=
        if existsb (fun action => JS.includes toolName action
                                  && JS.includes promptLower action)
                   allActions
        then 1.0
        else if existsb (fun action => JS.includes toolName action) allActions
             then 0.6 else 0 in
      let b :=
        if existsb (fun action => JS.includes toolName action)
                   (expectedActionsOf intentType)
        then 0.8 else 0 in
      calculateActionMatch tool intentType prompt == Qmax a b)
  /\
  (forall (d : option string) (s : Schema),
      let tool :=
        {| name := "compile_contract"; description := d; inputSchema := s |} in
      let toolName := JS.toLowerCase (name tool) in
      let promptLower := JS.toLowerCase "please compile my contract" in
      firstPass allActions toolName promptLower = 1.0
      /\ secondPass (expectedActionsOf "coding") toolName = 0.8
      /\ calculateActionMatch tool "coding" "please compile my contract"
         = 1.0).
Proof.
  split.
  - intros. apply calculateActionMatch_max.
  - intros. repeat split; vm_compute; reflexivity.
Qed.

(** *** Domain relevance *)

Lemma domainLoop_no_match toolText (weights : gmap string Q) domains st :
  Forall (fun d => JS.includes toolText (JS.toLowerCase d) = false) domains ->
  foldl (domainStep toolText weights) st domains = st.
Proof.
  intros Hd. revert st. induction Hd as [|d ds Hd _ IH]; intros st; [done|].
  simpl. rewrite <- (IH st) at 2. f_equal.
  destruct st as [t c]. unfold domainStep. by rewrite Hd.
Qed.

(** C6 (amended). With no domain the domain relevance is exactly 0.5; with
    domains of which none, once lower-cased, occurs in the tool's
    lower-case name and description text, it is 0. *)
Theorem domainRelevance_neutral_or_zero (tool : IMCPTool Schema)
    (domains : list string) (weights : gmap string Q) :
  (domains = [] -> calculateDomainRelevance tool domains weights = 0.5)
  /\ (domains <> [] ->
      Forall (fun d => JS.includes (domainToolText tool) (JS.toLowerCase d)
                       = false) domains ->
      calculateDomainRelevance tool domains weights = 0).
Proof.
  split.
  - intros ->. reflexivity.
  - intros Hne Hd. unfold calculateDomainRelevance.
    destruct domains as [|d ds]; [done|]. cbn [length Nat.eqb].
    by rewrite domainLoop_no_match.
Qed.

(** C10. A domain the configuration maps to weight 0 is looked up as 0.5 in
    the merged table, and a tool whose text contains that domain gets the
    domain relevance 0.5 for it, not 0. *)
Theorem zero_weight_override_ignored (tool : IMCPTool Schema)
    (domain : string) (overrides : gmap string Q) :
  overrides !! domain = Some 0 ->
  JS.includes (domainToolText tool) (JS.toLowerCase domain) = true ->
  let merged := overrides ∪ defaultDomainWeights in
  merged !! domain = Some 0
  /\ JS.opt_num_or (merged !! domain) 0.5 = 0.5
  /\ calculateDomainRelevance tool [domain] merged == 0.5
  /\ ~ calculateDomainRelevance tool [domain] merged == 0.
Proof.
  intros Hov Hin merged.
  assert (Hm : merged !! domain = Some 0).
  { unfold merged. by apply lookup_union_Some_l. }
  assert (Hr : calculateDomainRelevance tool [domain] merged == 0.5).
  { unfold calculateDomainRelevance. simpl. unfold domainStep.
    rewrite Hin, Hm. simpl. reflexivity. }
  repeat split; [done|by rewrite Hm|done|]. rewrite Hr. lra.
Qed.

End ScorerFacts.

(** ** The selector *)

Section HybridFacts.
Context {N : Type} `{!JSNumber N} {Schema : Type}.

Lemma counter_after_push {A : Type} (key : A -> string) (m : gmap string nat)
    (l : list A) (x : A) :
  (forall k, default 0%nat (m !! k) = length (filter (fun u => key u = k) l)) ->
  forall k,
    default 0%nat (<[key x := (default 0%nat (m !! key x) + 1)%nat]> m !! k)
    = length (filter (fun u => key u = k) (JS.push l x)).
Proof.
  intros Hm k. unfold JS.push. rewrite filter_app, length_app.
  destruct (decide (key x = k)) as [<-|Hne].
  - rewrite lookup_insert_eq. simpl. rewrite Hm.
    rewrite filter_cons_True by done. simpl. done.
  - rewrite lookup_insert_ne by done. rewrite Hm.
    rewrite filter_cons_False by done. simpl. lia.
Qed.

Lemma accepted_above_bar_push (l : list (IToolScoreOf N Schema)) t :
  accepted_above_bar l ->
  jgt (adjustedScore t (sameServer l t) (sameCategory l t)) (jdecimal 0.15)
  = true ->
  accepted_above_bar (JS.push l t).
Proof.
  intros Hl Ht pre u post Heq. unfold JS.push in Heq.
  destruct (decide (post = [])) as [->|Hpost].
  - apply app_inj_tail in Heq as [-> ->]. exact Ht.
  - destruct (exists_last Hpost) as (post' & t' & ->).
    rewrite app_comm_cons, app_assoc in Heq.
    apply app_inj_tail in Heq as [-> _]. by eapply Hl.
Qed.

Lemma hybridLoop_sound (maxTools : nat) (tools : list (IToolScoreOf N Schema))
    (st : HybridState N Schema) :
  counters_agree st ->
  accepted_above_bar (selected st) ->
  (length (selected st) <= maxTools)%nat ->
  let out := hybridLoop maxTools tools st in
  (length out <= maxTools)%nat
  /\ (exists more, out = (selected st ++ more)%list /\ more `sublist_of` tools)
  /\ accepted_above_bar out.
Proof.
  revert st. induction tools as [|t tools IH]; intros st Hc Hbar Hlen; simpl.
  - split; [done|]. split; [|done]. exists []. by rewrite app_nil_r.
  - destruct (maxTools <=? length (selected st))%nat eqn:Efull.
    { split; [done|]. split; [|done]. exists []. rewrite app_nil_r.
      split; [done|]. apply sublist_nil_l. }
    apply Nat.leb_gt in Efull.
    destruct (jgt _ (jdecimal 0.15)) eqn:Eacc.
    + destruct Hc as [Hs Hk].
      edestruct IH as (Hl & (more & Hout & Hsub) & Hb); last first.
      * split; [exact Hl|]. split; [|exact Hb].
        exists (t :: more). simpl in Hout. unfold JS.push in Hout.
        rewrite <- app_assoc in Hout. split; [exact Hout|].
        by apply sublist_skip.
      * simpl. unfold JS.push. rewrite length_app. simpl. lia.
      * simpl. apply accepted_above_bar_push; [done|].
        unfold sameServer, sameCategory. by rewrite <- Hs, <- Hk.
      * split; simpl.
        -- apply (counter_after_push serverName); done.
        -- apply (counter_after_push
                    (fun u => inferToolCategory (tool u))); done.
    + destruct (IH st Hc Hbar Hlen) as (Hl & (more & Hout & Hsub) & Hb).
      split; [exact Hl|]. split; [|exact Hb].
      exists more. split; [exact Hout|]. by apply sublist_cons.
Qed.

(** C4. Hybrid selection returns at most [maxTools] tools; they are tools
    of the input in their input order; and each was accepted with an
    adjusted score, its aggregate times one minus the penalty
    min(sourceCount*0.05, 0.2) + min(categoryCount*0.10, 0.3), strictly
    above 0.15, the counts being those of the tools accepted before it that
    share its server name, respectively its inferred category.  The
    products, sums, minima and the comparison are those of the number
    system [N] the scores live in: the statement holds of exact rationals
    and of IEEE doubles alike. *)
Theorem hybrid_selection_sound (tools : list (IToolScoreOf N Schema))
    (maxTools : nat) :
  let out := selectByHybrid tools maxTools in
  (length out <= maxTools)%nat
  /\ out `sublist_of` tools
  /\ (forall pre t post, out = (pre ++ t :: post)%list ->
        jgt (jmul (score t)
               (jsub (jdecimal 1)
                  (jadd (jmin (jmul (jcount (sameServer pre t))
                                 (jdecimal 0.05)) (jdecimal 0.2))
                        (jmin (jmul (jcount (sameCategory pre t))
                                 (jdecimal 0.1)) (jdecimal 0.3)))))
            (jdecimal 0.15) = true).
Proof.
  unfold selectByHybrid.
  destruct (hybridLoop_sound maxTools tools
              {| selected := []; serverCounts := ∅; categoryCounts := ∅ |})
    as (Hl & (more & Hout & Hsub) & Hb).
  - split; intros k; simpl; by rewrite lookup_empty.
  - intros pre t post Heq. by destruct pre.
  - simpl. lia.
  - simpl in *. split; [exact Hl|]. split; [by rewrite Hout|exact Hb].
Qed.

End HybridFacts.

Section SelectorFacts.
Context {Schema : Type} `{!JSONStringify Schema}.
Local Open Scope Q_scope.

(** C8. A strategy tag other than priority, semantic and hybrid makes the
    selector return the first [maxTools] tools of its input as they stand
    (all of them when there are fewer), unsorted. *)
Theorem unknown_strategy_truncates (scoredTools : list (IToolScore Schema))
    (maxTools : nat) (strategy : string) :
  strategy <> "priority" -> strategy <> "semantic" -> strategy <> "hybrid" ->
  selectTools scoredTools (Some maxTools) (Some strategy)
  = take maxTools scoredTools.
Proof.
  intros Hp Hs Hh. unfold selectTools. simpl.
  apply String.eqb_neq in Hp, Hs, Hh. by rewrite Hp, Hs, Hh.
Qed.

End SelectorFacts.

(** ** Worked scenarios *)

Section Scenarios.
Context {Schema : Type} `{!JSONStringify Schema}.
Local Open Scope Q_scope.

(** C7 (amended). The tool compile_contract, described as "Compiles
    solidity contracts", scored for the coding intent with keyword compile
    and domain solidity on the prompt "please compile my contract" under
    the default configuration, gets 1.0 for each component and for the
    aggregate, whatever its input schema.  The keyword match of 1.0 is the
    direct match of the keyword alone: the prompt does not contain the
    tool's name, so no name-in-prompt bonus is added and the accumulated
    score is 1.0 before the clamp. *)
Theorem compile_contract_scenario (s : Schema) :
  let tool :=
    {| name := "compile_contract";
       description := Some "Compiles solidity contracts";
       inputSchema := s |} in
  let intent :=
    {| type := "coding"; keywords := ["compile"]; domains := ["solidity"] |} in
  let prompt := "please compile my contract" in
  let r := calculateToolScore tool intent prompt
             (default ∅ (domainWeights noParams) ∪ defaultDomainWeights) in
  keywordMatch (result_components r) == 1.0
  /\ domainRelevance (result_components r) == 1.0
  /\ typeRelevance (result_components r) == 1.0
  /\ actionMatch (result_components r) == 1.0
  /\ result_score r == 1.0
  /\ JS.includes (JS.toLowerCase prompt) (JS.toLowerCase (name tool)) = false
  /\ keywordMatchScore tool (keywords intent) prompt == 1.0
  /\ map score (scoreTools [(tool, "remix")] intent prompt noParams)
     = [result_score r].
Proof.
  repeat split; vm_compute; reflexivity.
Qed.

End Scenarios.

(** C9. A relevance threshold configured as 0 is taken for unset:
    [scoreTools] then filters exactly as with the threshold 0.3, and drops
    the tool unrelated_tool, whose aggregate 0.185 lies strictly between 0
    and 0.3 and so is not below the configured threshold. *)
Theorem zero_threshold_falls_back :
  (forall (Schema : Type) (H : JSONStringify Schema)
          (tools : list (IMCPTool Schema * string)) intent prompt dw mt ss,
      scoreTools tools intent prompt
        {| domainWeights := dw; toolRelevanceThreshold := Some 0%Q;
           maxTools := mt; selectionStrategy := ss |}
      = scoreTools tools intent prompt
          {| domainWeights := dw; toolRelevanceThreshold := Some 0.3%Q;
             maxTools := mt; selectionStrategy := ss |})
  /\
  (exists (tool : IMCPTool string) serverName intent prompt,
      let params :=
        {| domainWeights := None; toolRelevanceThreshold := Some 0%Q;
           maxTools := None; selectionStrategy := None |} in
      let r := calculateToolScore tool intent prompt
                 (default ∅ (domainWeights params) ∪ defaultDomainWeights) in
      (0 < result_score r)%Q /\ (result_score r < 0.3)%Q
      /\ (configuredThreshold params <= result_score r)%Q
      /\ scoreTools [(tool, serverName)] intent prompt params = []).
Proof.
  split.
  - reflexivity.
  - exists {| name := "unrelated_tool"; description := Some "";
              inputSchema := "{}" |}, "remix",
           {| type := "coding"; keywords := ["foobar"]; domains := [] |}, "x".
    repeat split; by vm_compute.
Qed.

(** ** The properties at concrete inputs *)

Section Concrete.
Local Open Scope Q_scope.

Lemma defaultDomainWeights_unit (d : string) (w : Q) :
  defaultDomainWeights !! d = Some w -> 0 <= w /\ w <= 1.
Proof.
  revert d w.
  apply (map_Forall_to_list (fun (_ : string) (w : Q) => 0 <= w /\ w <= 1)).
  set (l := map_to_list defaultDomainWeights). vm_compute in l. subst l.
  repeat constructor; simpl; lra.
Qed.

Lemma components_in_unit_interval_own_keys_witness :
  (forall d w, defaultDomainWeights !! d = Some w -> 0 <= w /\ w <= 1)
  /\ JS.inherited (type coding_intent) = false
  /\ Forall (fun d => JS.inherited d = false)
            (matchedDomains (domainToolText compile_contract)
               (domains coding_intent))
  /\ let c := result_components
                (calculateToolScore compile_contract coding_intent
                   "please compile my contract" defaultDomainWeights) in
     (0 <= keywordMatch c /\ keywordMatch c <= 1)
     /\ (0 <= domainRelevance c /\ domainRelevance c <= 1)
     /\ (0 <= typeRelevance c /\ typeRelevance c <= 1)
     /\ (0 <= actionMatch c /\ actionMatch c <= 1).
Proof.
  assert (Ht : JS.inherited (type coding_intent) = false) by reflexivity.
  assert (Hd : Forall (fun d => JS.inherited d = false)
                 (matchedDomains (domainToolText compile_contract)
                    (domains coding_intent)))
    by (vm_compute; repeat constructor).
  split; [exact defaultDomainWeights_unit|].
  split; [exact Ht|]. split; [exact Hd|].
  pose proof (components_in_unit_interval_own_keys compile_contract
                coding_intent "please compile my contract"
                defaultDomainWeights defaultDomainWeights_unit Ht Hd) as H.
  simpl in H. simpl. tauto.
Defined.

Lemma hybrid_selection_sound_witness :
  let N := PrimFloat.float in
  let verify_z := scoredAs N "verify_z" "a" 0.2 in
  let pre := [scoredAs N "compile_x" "a" 0.9; scoredAs N "build_y" "b" 0.9] in
  selectByHybrid (borderline N) 3 = (pre ++ verify_z :: [])%list
  /\ sameServer pre verify_z = 1%nat
  /\ sameCategory pre verify_z = 2%nat
  /\ jgt (jmul (score verify_z)
            (jsub (jdecimal 1)
               (jadd (jmin (jmul (jcount (sameServer pre verify_z))
                              (jdecimal 0.05)) (jdecimal 0.2))
                     (jmin (jmul (jcount (sameCategory pre verify_z))
                              (jdecimal 0.1)) (jdecimal 0.3)))))
         (jdecimal 0.15) = true.
Proof.
  intros N verify_z pre.
  assert (H : selectByHybrid (borderline N) 3 = (pre ++ verify_z :: [])%list)
    by (vm_compute; reflexivity).
  split; [exact H|]. split; [reflexivity|]. split; [reflexivity|].
  exact (proj2 (proj2 (hybrid_selection_sound (borderline N) 3))
           pre verify_z [] H).
Defined.

Lemma domainRelevance_neutral_or_zero_witness :
  (([] : list string) = []
   /\ calculateDomainRelevance compile_contract [] defaultDomainWeights = 0.5)
  /\ (["react"] <> []
      /\ Forall (fun d => JS.includes (domainToolText compile_contract)
                            (JS.toLowerCase d) = false) ["react"]
      /\ calculateDomainRelevance compile_contract ["react"]
           defaultDomainWeights = 0).
Proof.
  split.
  - split; [reflexivity|].
    exact (proj1 (domainRelevance_neutral_or_zero compile_contract []
                    defaultDomainWeights) eq_refl).
  - assert (Hne : ["react"] <> []) by discriminate.
    assert (Hd : Forall (fun d => JS.includes (domainToolText compile_contract)
                                    (JS.toLowerCase d) = false) ["react"])
      by (repeat constructor).
    split; [exact Hne|]. split; [exact Hd|].
    exact (proj2 (domainRelevance_neutral_or_zero compile_contract ["react"]
                    defaultDomainWeights) Hne Hd).
Defined.

(** C6, as stated, fails: the domain [Solidity] does not occur in the
    lower-case text of the tool named [solidity], yet the domain relevance
    is 0.5, since the loop looks for the lower-cased domain. *)
Lemma domainRelevance_case_counterexample :
  ~ (forall (tool : IMCPTool string) (domains : list string)
            (weights : gmap string Q),
        (domains = [] -> calculateDomainRelevance tool domains weights == 0.5)
        /\ (domains <> [] ->
            Forall (fun d => JS.includes (domainToolText tool) d = false)
                   domains ->
            calculateDomainRelevance tool domains weights == 0)).
Proof.
  intros H.
  destruct (H solidity_tool ["Solidity"] defaultDomainWeights) as [_ H0].
  assert (Hr : calculateDomainRelevance solidity_tool ["Solidity"]
                 defaultDomainWeights == 0.5) by (vm_compute; reflexivity).
  rewrite Hr in H0.
  assert (Hz : 0.5 == 0); [|lra].
  apply H0; [discriminate|]. repeat constructor.
Qed.

(** C7, as stated, fails in its account of the keyword match: the prompt
    does not contain the tool's name, so the score accumulated before the
    clamp is the direct match 1.0 and not 1.0 plus the bonus 1.0. *)
Lemma compile_contract_bonus_counterexample :
  ~ (let prompt := "please compile my contract" in
     let r := calculateToolScore compile_contract coding_intent prompt
                (default ∅ (domainWeights noParams) ∪ defaultDomainWeights) in
     (keywordMatch (result_components r) == 1.0
      /\ JS.includes (JS.toLowerCase prompt)
           (JS.toLowerCase (name compile_contract)) = true
      /\ keywordMatchScore compile_contract (keywords coding_intent) prompt
         == 1.0 + 1.0)
     /\ domainRelevance (result_components r) == 1.0
     /\ typeRelevance (result_components r) == 1.0
     /\ actionMatch (result_components r) == 1.0
     /\ result_score r == 1.0).
Proof.
  intros [(_ & Hbonus & _) _]. vm_compute in Hbonus. discriminate.
Qed.

Lemma unknown_strategy_truncates_witness :
  "naive" <> "priority" /\ "naive" <> "semantic" /\ "naive" <> "hybrid"
  /\ selectTools [compile_c; compile_a; compile_b] (Some 2%nat) (Some "naive")
     = take 2 [compile_c; compile_a; compile_b].
Proof.
  assert (H1 : "naive" <> "priority") by discriminate.
  assert (H2 : "naive" <> "semantic") by discriminate.
  assert (H3 : "naive" <> "hybrid") by discriminate.
  split; [exact H1|]. split; [exact H2|]. split; [exact H3|].
  exact (unknown_strategy_truncates [compile_c; compile_a; compile_b] 2
           "naive" H1 H2 H3).
Defined.

Lemma zero_weight_override_ignored_witness :
  let overrides : gmap string Q := {[ "solidity" := 0 ]} in
  overrides !! "solidity" = Some 0
  /\ JS.includes (domainToolText compile_contract) (JS.toLowerCase "solidity")
     = true
  /\ calculateDomainRelevance compile_contract ["solidity"]
       (overrides ∪ defaultDomainWeights) == 0.5.
Proof.
  intros overrides.
  assert (H1 : overrides !! "solidity" = Some 0) by reflexivity.
  assert (H2 : JS.includes (domainToolText compile_contract)
                 (JS.toLowerCase "solidity") = true) by reflexivity.
  split; [exact H1|]. split; [exact H2|].
  exact (proj1 (proj2 (proj2 (zero_weight_override_ignored compile_contract
                                "solidity" overrides H1 H2)))).
Defined.

(** *** Further checks on the scenarios of the specification *)

(** The tool unrelated_tool scores 0.185 and is filtered out under the
    default configuration. *)
Example unrelated_tool_filtered :
  result_score (calculateToolScore unrelated_tool foobar_intent "x"
                  defaultDomainWeights) == 0.185
  /\ scoreTools [(unrelated_tool, "remix")] foobar_intent "x" noParams = [].
Proof. split; vm_compute; reflexivity. Qed.

(** Before the clamp the keyword score can exceed the number of keywords:
    a prompt that names the tool adds 1.0 to the direct match. *)
Example keyword_score_exceeds_count :
  keywordMatchScore compile_contract ["compile"] "run compile_contract now"
  == 2
  /\ calculateKeywordMatch compile_contract ["compile"]
       "run compile_contract now" == 1.
Proof. split; vm_compute; reflexivity. Qed.

(** Three tools of one server and category with scores 0.9, 0.85 and 0.8
    are all accepted: the adjusted scores are 0.9, 0.7225 and 0.56. *)
Example hybrid_three_accepted :
  selectByHybrid [compile_a; compile_b; compile_c] 3
  = [compile_a; compile_b; compile_c]
  /\ adjustedScore compile_b 1 1 == 0.7225
  /\ adjustedScore compile_c 2 2 == 0.56.
Proof. repeat split; vm_compute; reflexivity. Qed.

(** The priority strategy sorts, the fallback does not. *)
Example priority_sorts :
  selectTools [compile_c; compile_a; compile_b] (Some 2%nat) (Some "priority")
  = [compile_a; compile_b].
Proof. vm_compute. reflexivity. Qed.

(** Tools of equal score keep their input order when sorted. *)
Example sort_keeps_ties :
  selectTools [tie_first; compile_c; tie_second; compile_a] (Some 4%nat)
    (Some "priority")
  = [compile_a; compile_c; tie_first; tie_second].
Proof. vm_compute. reflexivity. Qed.

Example includes_examples :
  JS.includes "compile_contract" "compile" = true
  /\ JS.includes "abc" "" = true
  /\ JS.includes "abc" "bd" = false
  /\ JS.toLowerCase "Compiles Solidity_X9" = "compiles solidity_x9"
  /\ JS.substring0 (Nat.max 4 (String.length "compilation" - 2)) "compilation"
     = "compilati".
Proof. repeat split. Qed.

End Concrete.

(** * Further properties of the service *)

Section MoreScorerFacts.
Context {Schema : Type} `{!JSONStringify Schema}.
Local Open Scope Q_scope.

(** ** Type relevance *)

Lemma intentTypeToActions_nonempty (intentType : string)
    (verbs : list string) :
  intentTypeToActions !! intentType = Some verbs -> verbs <> [].
Proof.
  revert intentType verbs.
  apply (map_Forall_to_list
           (fun (_ : string) (verbs : list string) => verbs <> [])).
  set (l := map_to_list intentTypeToActions). vm_compute in l. subst l.
  repeat constructor; simpl; discriminate.
Qed.

Lemma typeRelevance_loop toolName toolDesc (verbs : list string) (m : Q) :
  m = 0 \/ m = 1.0 ->
  foldl (fun maxRelevance action =>
           if JS.includes toolName action || JS.includes toolDesc action
           then Qmax maxRelevance 1.0 else maxRelevance) m verbs
  = if existsb (fun action => JS.includes toolName action
                              || JS.includes toolDesc action) verbs
    then 1.0 else m.
Proof.
  revert m. induction verbs as [|a verbs IH]; intros m Hm; [done|].
  simpl. destruct (JS.includes toolName a || JS.includes toolDesc a); simpl.
  - rewrite IH; [|right; by destruct Hm as [->| ->]].
    destruct (existsb _ verbs); [done|]. by destruct Hm as [->| ->].
  - by apply IH.
Qed.

(** X1. For an intent type that is no name inherited from
    [Object.prototype], the type relevance takes three values: 0.5 when
    the table does not know the type, 1.0 when some expected verb of the
    type occurs in the lower-cased name or description of the tool, and
    0.3 otherwise. *)
Theorem typeRelevance_three_values (tool : IMCPTool Schema)
    (intentType : string) :
  JS.inherited intentType = false ->
  calculateTypeRelevance tool intentType =
  match intentTypeToActions !! intentType with
  | None => 0.5
  | Some verbs =>
      if existsb (fun action =>
                    JS.includes (JS.toLowerCase (name tool)) action
                    || JS.includes
                         (JS.toLowerCase (default "" (description tool)))
                         action) verbs
      then 1.0 else 0.3
  end.
Proof.
  intros _. unfold calculateTypeRelevance, expectedActionsOf.
  destruct (intentTypeToActions !! intentType) as [verbs|] eqn:E; [|done].
  apply intentTypeToActions_nonempty in E. simpl.
  destruct verbs as [|v verbs]; [done|]. cbn [length Nat.eqb].
  rewrite typeRelevance_loop by (by left).
  by destruct (existsb _ _).
Qed.

(** ** Keyword match *)

Lemma keywordStep_award toolText (st : Q * nat) keyword :
  fst (keywordStep toolText st keyword)
  == fst st + keywordAward toolText keyword.
Proof.
  destruct st as [m c]. unfold keywordStep, keywordAward. simpl.
  repeat destruct (JS.includes _ _); simpl; lra.
Qed.

Lemma keywordLoop_sum toolText keywords (st : Q * nat) :
  fst (foldl (keywordStep toolText) st keywords)
  == fst st + Qsum (map (keywordAward toolText) keywords).
Proof.
  revert st. induction keywords as [|k ks IH]; intros st.
  - unfold Qsum. simpl. lra.
  - change (Qsum (map (keywordAward toolText) (k :: ks)))
      with (keywordAward toolText k + Qsum (map (keywordAward toolText) ks)).
    simpl. rewrite IH, keywordStep_award. lra.
Qed.

Lemma keywordAward_bounds toolText keyword :
  0 <= keywordAward toolText keyword /\ keywordAward toolText keyword <= 1.
Proof. unfold keywordAward. repeat destruct (JS.includes _ _); lra. Qed.

Lemma award_sum_bounds toolText keywords :
  0 <= Qsum (map (keywordAward toolText) keywords)
  /\ Qsum (map (keywordAward toolText) keywords) <= num (length keywords).
Proof.
  induction keywords as [|k ks IH].
  - split; [unfold Qsum; simpl; lra | apply num_nonneg].
  - pose proof (keywordAward_bounds toolText k).
    change (length (k :: ks)) with (S (length ks)). rewrite num_S.
    change (Qsum (map (keywordAward toolText) (k :: ks)))
      with (keywordAward toolText k + Qsum (map (keywordAward toolText) ks)).
    split; lra.
Qed.

Lemma keywordMatchScore_sum (tool : IMCPTool Schema) keywords prompt :
  keywordMatchScore tool keywords prompt
  == Qsum (map (keywordAward (keywordToolText tool)) keywords)
     + (if JS.includes (JS.toLowerCase prompt) (JS.toLowerCase (name tool))
        then 1.0 else 0).
Proof.
  unfold keywordMatchScore.
  pose proof (keywordLoop_sum (keywordToolText tool) keywords (0, 0%nat)) as H.
  simpl in H. destruct (JS.includes _ _); rewrite H; lra.
Qed.

Lemma award_sum_zero toolText keywords :
  Qsum (map (keywordAward toolText) keywords) == 0
  <-> Forall (fun k => keywordAward toolText k = 0) keywords.
Proof.
  induction keywords as [|k ks IH].
  - split; [constructor | reflexivity].
  - change (Qsum (map (keywordAward toolText) (k :: ks)))
      with (keywordAward toolText k + Qsum (map (keywordAward toolText) ks)).
    pose proof (award_sum_bounds toolText ks) as [Hs _].
    rewrite Forall_cons, <- IH.
    assert (Ha : keywordAward toolText k = 1.0
                 \/ keywordAward toolText k = 0.7
                 \/ keywordAward toolText k = 0).
    { unfold keywordAward. repeat destruct (JS.includes _ _); auto. }
    destruct Ha as [-> | [-> | ->]].
    + split; [intros H; lra | intros [H _]; discriminate H].
    + split; [intros H; lra | intros [H _]; discriminate H].
    + split; [intros H; split; [reflexivity|lra] | intros [_ H]; lra].
Qed.

Lemma clamped_ratio_zero (x : Q) (n : nat) :
  (0 < n)%nat -> 0 <= x -> (Qmin (x / num n) 1.0 == 0 <-> x == 0).
Proof.
  intros Hn Hx. apply num_pos in Hn.
  assert (Hne : ~ num n == 0) by lra.
  pose proof (Qmult_div_r x _ Hne) as Hm.
  split; intros H.
  - destruct (Q.min_spec (x / num n) 1.0) as [[_ E]|[_ E]];
      rewrite E in H; [|lra].
    rewrite H in Hm. lra.
  - assert (Hz : x / num n == 0) by (rewrite H; unfold Qdiv; ring).
    rewrite Hz. reflexivity.
Qed.

Lemma calculateKeywordMatch_nonempty (tool : IMCPTool Schema) keywords prompt :
  keywords <> [] ->
  calculateKeywordMatch tool keywords prompt
  = Qmin (keywordMatchScore tool keywords prompt / num (length keywords)) 1.0
    /\ 0 < num (length keywords).
Proof.
  intros Hne. destruct keywords as [|k ks]; [done|].
  split; [reflexivity|]. apply num_pos. simpl. lia.
Qed.

(** X2. With at least one keyword, the keyword match is 0 exactly when no
    keyword matches the tool text, neither directly nor by its stem, and
    the prompt does not contain the tool's name. *)
Theorem keywordMatch_zero_iff (tool : IMCPTool Schema)
    (keywords : list string) (prompt : string) :
  keywords <> [] ->
  (calculateKeywordMatch tool keywords prompt == 0
   <-> Forall (fun k => keywordAward (keywordToolText tool) k = 0) keywords
       /\ JS.includes (JS.toLowerCase prompt) (JS.toLowerCase (name tool))
          = false).
Proof.
  intros Hne.
  destruct (calculateKeywordMatch_nonempty tool keywords prompt Hne)
    as [-> _].
  rewrite clamped_ratio_zero;
    [|destruct keywords; [done|simpl; lia]|apply keywordMatchScore_nonneg].
  rewrite keywordMatchScore_sum, <- award_sum_zero.
  pose proof (award_sum_bounds (keywordToolText tool) keywords) as [Hs _].
  destruct (JS.includes _ _); split.
  - intros H. lra.
  - intros [_ H]. discriminate.
  - intros H. split; [lra|done].
  - intros [H _]. lra.
Qed.

(** X3. When every keyword occurs verbatim (lower-cased) in the tool text,
    the keyword match is 1, whatever the prompt. *)
Theorem keywordMatch_all_direct (tool : IMCPTool Schema)
    (keywords : list string) (prompt : string) :
  keywords <> [] ->
  Forall (fun k => JS.includes (keywordToolText tool) (JS.toLowerCase k)
                   = true) keywords ->
  calculateKeywordMatch tool keywords prompt == 1.
Proof.
  intros Hne Hall.
  destruct (calculateKeywordMatch_nonempty tool keywords prompt Hne)
    as [-> Hn].
  set (kws := keywords) in *.
  assert (Hsum : Qsum (map (keywordAward (keywordToolText tool)) kws)
                 == num (length kws)).
  { clearbody kws. clear Hne Hn. induction Hall as [|x l Hx _ IH].
    - unfold Qsum, num. simpl. reflexivity.
    - change (Qsum (map (keywordAward (keywordToolText tool)) (x :: l)))
        with (keywordAward (keywordToolText tool) x
              + Qsum (map (keywordAward (keywordToolText tool)) l)).
      change (length (x :: l)) with (S (length l)).
      rewrite num_S, IH. unfold keywordAward. rewrite Hx. lra. }
  assert (Hge : 1 <= keywordMatchScore tool kws prompt / num (length kws)).
  { apply Qle_shift_div_l; [done|].
    rewrite keywordMatchScore_sum, Hsum. destruct (JS.includes _ _); lra. }
  destruct (Q.min_spec (keywordMatchScore tool kws prompt / num (length kws))
              1.0) as [[? ->]|[? ->]]; lra.
Qed.

(** X4. The score accumulated before the clamp never exceeds the number of
    keywords by more than the bonus 1.0; and when the prompt does not
    contain the tool's name, the keyword match is the mean of the
    per-keyword awards, so that the clamp changes nothing. *)
Theorem keywordMatch_mean_without_bonus (tool : IMCPTool Schema)
    (keywords : list string) (prompt : string) :
  keywords <> [] ->
  keywordMatchScore tool keywords prompt <= num (length keywords) + 1
  /\ (JS.includes (JS.toLowerCase prompt) (JS.toLowerCase (name tool)) = false
      -> calculateKeywordMatch tool keywords prompt
         == Qsum (map (keywordAward (keywordToolText tool)) keywords)
            / num (length keywords)).
Proof.
  intros Hne.
  pose proof (award_sum_bounds (keywordToolText tool) keywords) as [Hs0 Hs1].
  split.
  - rewrite keywordMatchScore_sum. destruct (JS.includes _ _); lra.
  - intros Hno.
    destruct (calculateKeywordMatch_nonempty tool keywords prompt Hne)
      as [-> Hn].
    set (kws := keywords) in *.
    assert (Hm : keywordMatchScore tool kws prompt
                 == Qsum (map (keywordAward (keywordToolText tool)) kws)).
    { rewrite keywordMatchScore_sum, Hno. lra. }
    rewrite Hm.
    assert (Hle : Qsum (map (keywordAward (keywordToolText tool)) kws)
                  / num (length kws) <= 1).
    { apply Qle_shift_div_r; [done|]. lra. }
    destruct (Q.min_spec (Qsum (map (keywordAward (keywordToolText tool)) kws)
                          / num (length kws)) 1.0) as [[? ->]|[? ->]]; lra.
Qed.

(** ** The aggregate *)

Lemma mergedWeights_unit (params : IEnhancedMCPProviderParams) :
  (forall ov d w, domainWeights params = Some ov -> ov !! d = Some w ->
                  0 <= w /\ w <= 1) ->
  forall d w, mergedWeights params !! d = Some w -> unit_interval w.
Proof.
  intros Hov d w. unfold mergedWeights. rewrite lookup_union_Some_raw.
  intros [Hd|[_ Hd]].
  - destruct (domainWeights params) as [ov|] eqn:E; simpl in Hd.
    + by eapply Hov.
    + by rewrite lookup_empty in Hd.
  - revert d w Hd.
    apply (map_Forall_to_list (fun (_ : string) (w : Q) => unit_interval w)).
    set (l := map_to_list defaultDomainWeights). vm_compute in l. subst l.
    repeat constructor; simpl; lra.
Qed.

Lemma calculateToolScore_bounds (tool : IMCPTool Schema) intent prompt
    (weights : gmap string Q) :
  (forall d w, weights !! d = Some w -> unit_interval w) ->
  unit_interval (result_score (calculateToolScore tool intent prompt weights)).
Proof.
  intros Hw.
  pose proof (calculateToolScore_sum tool intent prompt weights) as Hsum.
  simpl in Hsum. unfold weightedSum in Hsum. simpl in Hsum.
  destruct (calculateKeywordMatch_bounds tool (keywords intent) prompt).
  destruct (calculateDomainRelevance_bounds tool (domains intent) weights Hw).
  destruct (calculateTypeRelevance_bounds tool (type intent)).
  destruct (calculateActionMatch_bounds tool (type intent) prompt).
  unfold unit_interval. rewrite Hsum. split; lra.
Qed.

(** X5. When the configured domain weights lie in [0,1], the aggregate of
    every scored tool [scoreTools] returns lies in [0,1], as do its four
    components. *)
Theorem scoreTools_scores_in_unit_interval
    (tools : list (IMCPTool Schema * string)) (intent : IUserIntent)
    (prompt : string) (params : IEnhancedMCPProviderParams) :
  (forall ov d w, domainWeights params = Some ov -> ov !! d = Some w ->
                  0 <= w /\ w <= 1) ->
  Forall (fun t =>
            (0 <= score t /\ score t <= 1)
            /\ (0 <= keywordMatch (components t)
                /\ keywordMatch (components t) <= 1)
            /\ (0 <= domainRelevance (components t)
                /\ domainRelevance (components t) <= 1)
            /\ (0 <= typeRelevance (components t)
                /\ typeRelevance (components t) <= 1)
            /\ (0 <= actionMatch (components t)
                /\ actionMatch (components t) <= 1))
         (scoreTools tools intent prompt params).
Proof.
  intros Hov. apply scoreTools_Forall. intros tool serverName r _.
  pose proof (mergedWeights_unit params Hov) as Hw.
  split; [apply (calculateToolScore_bounds tool intent prompt _ Hw)|].
  simpl. split; [apply calculateKeywordMatch_bounds|].
  split; [by apply calculateDomainRelevance_bounds|].
  split; [apply calculateTypeRelevance_bounds|].
  apply calculateActionMatch_bounds.
Qed.

(** ** Domain relevance *)

Lemma domainLoop_matched toolText (weights : gmap string Q) domains
    (st : Q * nat) :
  let st' := foldl (domainStep toolText weights) st domains in
  let matched := matchedDomains toolText domains in
  fst st' == fst st + Qsum (map (domainWeightOf weights) matched)
  /\ snd st' = (snd st + length matched)%nat.
Proof.
  revert st. induction domains as [|d ds IH]; intros [t c]; simpl.
  - unfold Qsum. simpl. split; [lra|lia].
  - destruct (IH (domainStep toolText weights (t, c) d)) as [IH1 IH2].
    simpl in IH1, IH2. rewrite IH1, IH2. unfold domainStep, matchedDomains.
    simpl. destruct (JS.includes toolText (JS.toLowerCase d)); simpl.
    + change (Qsum (domainWeightOf weights d :: ?l))
        with (domainWeightOf weights d + Qsum l).
      unfold domainWeightOf at 2. split; [lra|lia].
    + split; [lra|lia].
Qed.

(** X6. With at least one domain, and when no domain the tool text matches
    is a name inherited from [Object.prototype], the domain relevance is
    the mean of the weights of the domains the tool text matches (0.5
    standing in for a missing or zero weight), and 0 when it matches none:
    unmatched domains do not enter the mean. *)
Theorem domainRelevance_mean_of_matched (tool : IMCPTool Schema)
    (domains : list string) (weights : gmap string Q) :
  domains <> [] ->
  Forall (fun d => JS.inherited d = false)
         (matchedDomains (domainToolText tool) domains) ->
  let matched := matchedDomains (domainToolText tool) domains in
  calculateDomainRelevance tool domains weights ==
  match matched with
  | [] => 0
  | _ :: _ => Qsum (map (domainWeightOf weights) matched)
              / num (length matched)
  end.
Proof.
  intros Hne _ matched. unfold calculateDomainRelevance.
  destruct domains as [|d0 ds]; [done|]. cbn [length Nat.eqb].
  set (ds' := d0 :: ds) in *.
  pose proof (domainLoop_matched (domainToolText tool) weights ds' (0, 0%nat))
    as H.
  cbv zeta in H. fold matched in H.
  destruct (foldl (domainStep (domainToolText tool) weights) (0, 0%nat) ds')
    as [t c].
  destruct H as [H1 H2]. cbn [fst snd] in H1, H2.
  rewrite Nat.add_0_l in H2. subst c.
  destruct matched as [|m ms]; [reflexivity|].
  cbn [length Nat.ltb Nat.leb]. rewrite H1.
  unfold Qdiv. ring.
Qed.

(** X7. A domain the tool text does not match never changes the domain
    relevance, wherever it stands among the domains, provided some other
    domain is left. *)
Theorem unmatched_domain_ignored (tool : IMCPTool Schema)
    (pre post : list string) (d : string) (weights : gmap string Q) :
  (pre ++ post)%list <> [] ->
  JS.includes (domainToolText tool) (JS.toLowerCase d) = false ->
  calculateDomainRelevance tool (pre ++ d :: post) weights
  = calculateDomainRelevance tool (pre ++ post) weights.
Proof.
  intros Hne Hd. unfold calculateDomainRelevance.
  assert (H1 : (length (pre ++ d :: post) =? 0)%nat = false).
  { apply Nat.eqb_neq. rewrite length_app. simpl. lia. }
  assert (H2 : (length (pre ++ post) =? 0)%nat = false).
  { apply Nat.eqb_neq. destruct pre, post; simpl; try lia. done. }
  rewrite H1, H2, !foldl_app. simpl.
  replace (domainStep (domainToolText tool) weights
             (foldl (domainStep (domainToolText tool) weights) (0, 0%nat) pre)
             d)
    with (foldl (domainStep (domainToolText tool) weights) (0, 0%nat) pre);
    [done|].
  destruct (foldl _ _ pre) as [t c]. unfold domainStep. by rewrite Hd.
Qed.

(** ** Scoring a collection *)

Lemma scoreLoop_filter_map intent prompt (weights : gmap string Q)
    (threshold : Q) (acc : list (IToolScore Schema))
    (tools : list (IMCPTool Schema * string)) :
  foldl (scoreStep intent prompt weights threshold) acc tools
  = (acc ++ List.filter (fun t => JS.ge (score t) threshold)
              (map (scoreEntry intent prompt weights) tools))%list.
Proof.
  revert acc. induction tools as [|[tool serverName] tools IH]; intros acc.
  - simpl. by rewrite app_nil_r.
  - simpl. rewrite IH. unfold scoreEntry at 2. simpl.
    destruct (JS.ge _ threshold); [|done].
    unfold JS.push. by rewrite <- app_assoc.
Qed.

(** X8. [scoreTools] returns exactly the scored entries of its input whose
    aggregate reaches the threshold in force: each returned tool is the
    scoring of some input entry with such an aggregate, each such entry is
    returned, and nothing is returned more often than it is given. *)
Theorem scoreTools_members (tools : list (IMCPTool Schema * string))
    (intent : IUserIntent) (prompt : string)
    (params : IEnhancedMCPProviderParams) :
  let out := scoreTools tools intent prompt params in
  let scoreOf := scoreEntry intent prompt (mergedWeights params) in
  (forall t, t ∈ out <->
             exists entry, entry ∈ tools /\ t = scoreOf entry
                           /\ effectiveThreshold params <= score t)
  /\ out ≡ₚ List.filter (fun t => JS.ge (score t) (effectiveThreshold params))
             (map scoreOf tools)
  /\ (length out <= length tools)%nat.
Proof.
  intros out scoreOf.
  assert (Hperm : out ≡ₚ List.filter
                   (fun t => JS.ge (score t) (effectiveThreshold params))
                   (map scoreOf tools)).
  { unfold out, scoreTools. rewrite (sort_perm score).
    by rewrite scoreLoop_filter_map. }
  split; [|split; [exact Hperm|]].
  - intros t. rewrite Hperm, list_elem_of_In, filter_In, <- list_elem_of_In.
    rewrite list_elem_of_fmap, ge_true. split.
    + intros [(entry & -> & He) Ht]. by exists entry.
    + intros (entry & He & -> & Ht). split; [by exists entry|done].
  - rewrite Hperm.
    etransitivity; [apply filter_length_le|]. by rewrite length_map.
Qed.

End MoreScorerFacts.

(** ** Further properties of the selector *)

Section MoreSelectorFacts.
Context {Schema : Type} `{!JSONStringify Schema}.
Local Open Scope Q_scope.

Lemma sort_sorted_id {A : Type} (key : A -> Q) (l : list A) :
  StronglySorted (fun a b => key b <= key a) l ->
  JS.sort (fun a b => key b - key a) l = l.
Proof.
  induction 1 as [|x l Hl IH Hx]; [done|].
  simpl. rewrite IH. destruct l as [|y l]; [done|]. simpl.
  apply Forall_cons in Hx as [Hy _].
  assert (E : Qle_bool (key y - key x) 0 = true)
    by (apply Qle_bool_iff; lra).
  by rewrite E.
Qed.

(** X9. On a list already sorted by decreasing aggregate, such as the
    output of [scoreTools], the priority strategy only truncates: it
    returns the first [maxTools] tools, as the fallback for an unknown
    strategy does. *)
Theorem priority_after_scoreTools_truncates
    (tools : list (IMCPTool Schema * string)) (intent : IUserIntent)
    (prompt : string) (params : IEnhancedMCPProviderParams) (n : nat) :
  selectTools (scoreTools tools intent prompt params) (Some n)
    (Some "priority")
  = take n (scoreTools tools intent prompt params).
Proof.
  unfold selectTools. simpl. unfold selectByScore, JS.slice0.
  rewrite (sort_sorted_id score); [done|].
  unfold scoreTools. apply (sort_sorted score).
Qed.

(** The first [n] elements of a list sorted by decreasing [key] are [n]
    elements of greatest key. *)
Lemma sort_take_top {A : Type} (key : A -> Q) (l : list A) (n : nat) :
  let sorted := JS.sort (fun a b => key b - key a) l in
  let out := JS.slice0 n sorted in
  length out = Nat.min n (length l)
  /\ StronglySorted (fun a b => key b <= key a) out
  /\ (out ++ drop n sorted)%list ≡ₚ l
  /\ Forall (fun a => Forall (fun b => key b <= key a) (drop n sorted)) out.
Proof.
  intros sorted out. unfold out, JS.slice0.
  pose proof (sort_sorted key l) as Hs. fold sorted in Hs.
  rewrite <- (take_drop n sorted) in Hs.
  apply StronglySorted_app in Hs as (Hcross & Htake & _).
  split; [|split; [exact Htake|split]].
  - rewrite length_take. unfold sorted.
    by rewrite (Permutation_length (sort_perm key l)).
  - rewrite take_drop. apply (sort_perm key).
  - apply Forall_forall. intros a Ha. apply Forall_forall. intros b Hb.
    by apply Hcross.
Qed.

(** X10. The priority strategy returns min(maxTools, number of tools)
    tools, by decreasing aggregate, and they are tools of greatest
    aggregate: together with the tools left out they make up the input,
    and no tool left out has a greater aggregate than a tool returned. *)
Theorem selectByScore_takes_top (tools : list (IToolScore Schema))
    (n : nat) :
  let out := selectByScore tools n in
  length out = Nat.min n (length tools)
  /\ StronglySorted (fun a b => score b <= score a) out
  /\ exists rest, (out ++ rest)%list ≡ₚ tools
                  /\ Forall (fun a => Forall (fun b => score b <= score a)
                                        rest) out.
Proof.
  destruct (sort_take_top score tools n) as (H1 & H2 & H3 & H4).
  split; [exact H1|]. split; [exact H2|]. eexists. split; [exact H3|exact H4].
Qed.

(** X11. The semantic strategy does the same with the mean of the keyword,
    domain and action components in place of the aggregate; the type
    relevance plays no part in its order. *)
Theorem selectBySemantic_takes_top (tools : list (IToolScore Schema))
    (n : nat) :
  let key := fun t : IToolScore Schema =>
    (keywordMatch (components t) + domainRelevance (components t)
     + actionMatch (components t)) / 3 in
  let out := selectBySemantic tools n in
  length out = Nat.min n (length tools)
  /\ StronglySorted (fun a b => key b <= key a) out
  /\ exists rest, (out ++ rest)%list ≡ₚ tools
                  /\ Forall (fun a => Forall (fun b => key b <= key a) rest)
                            out.
Proof.
  destruct (sort_take_top semanticScore tools n) as (H1 & H2 & H3 & H4).
  split; [exact H1|]. split; [exact H2|]. eexists. split; [exact H3|exact H4].
Qed.

Lemma take_sort_submseteq {A : Type} (key : A -> Q) (l : list A) (n : nat) :
  JS.slice0 n (JS.sort (fun a b => key b - key a) l) ⊆+ l.
Proof.
  unfold JS.slice0. rewrite <- (sort_perm key l) at 2.
  apply sublist_submseteq, sublist_take.
Qed.

(** X12. Whatever the strategy tag, and with the defaults for what is
    left out, the selector returns at most [maxTools] tools (15 by default)
    and returns only tools of its input, none more often than it occurs
    there. *)
Theorem selectTools_bounded (scoredTools : list (IToolScore Schema))
    (maxTools : option nat) (strategy : option string) :
  let out := selectTools scoredTools maxTools strategy in
  (length out <= default 15%nat maxTools)%nat /\ out ⊆+ scoredTools.
Proof.
  unfold selectTools. simpl.
  set (n := default 15%nat maxTools).
  repeat destruct (String.eqb _ _).
  - split; [|apply (take_sort_submseteq score)].
    unfold selectByScore, JS.slice0. rewrite length_take. lia.
  - split; [|apply (take_sort_submseteq semanticScore)].
    unfold selectBySemantic, JS.slice0. rewrite length_take. lia.
  - unfold selectByHybrid.
    destruct (hybridLoop_sound n scoredTools
                {| selected := []; serverCounts := ∅; categoryCounts := ∅ |})
      as (Hl & (more & Hout & Hsub) & _).
    + split; intros k; simpl; by rewrite lookup_empty.
    + intros pre t post Heq. by destruct pre.
    + simpl. lia.
    + split; [exact Hl|]. simpl in Hout. rewrite Hout.
      by apply sublist_submseteq.
  - unfold JS.slice0. split; [rewrite length_take; lia|].
    apply sublist_submseteq, sublist_take.
Qed.

Lemma diversityPenalty_bounds (serverCount categoryCount : nat) :
  0 <= diversityPenalty serverCount categoryCount
  /\ diversityPenalty serverCount categoryCount <= 0.5.
Proof.
  unfold diversityPenalty. cbn [jadd jmul jsub jmin jgt jdecimal jcount rational_number].
  pose proof (num_nonneg serverCount). pose proof (num_nonneg categoryCount).
  destruct (Q.min_spec (num serverCount * 0.05) 0.2) as [[? ->]|[? ->]];
    destruct (Q.min_spec (num categoryCount * 0.1) 0.3) as [[? ->]|[? ->]];
    split; lra.
Qed.

(** X13. The diversity penalty lies between 0 and 0.5, so the hybrid
    strategy never returns a tool whose aggregate is 0.15 or less. *)
Theorem hybrid_selects_above_bar (tools : list (IToolScore Schema))
    (maxTools : nat) :
  (forall serverCount categoryCount,
      0 <= diversityPenalty serverCount categoryCount
      /\ diversityPenalty serverCount categoryCount <= 0.5)
  /\ Forall (fun t => 0.15 < score t) (selectByHybrid tools maxTools).
Proof.
  split; [apply diversityPenalty_bounds|].
  unfold selectByHybrid.
  destruct (hybridLoop_sound maxTools tools
              {| selected := []; serverCounts := ∅; categoryCounts := ∅ |})
    as (_ & _ & Hbar).
  - split; intros k; simpl; by rewrite lookup_empty.
  - intros pre t post Heq. by destruct pre.
  - simpl. lia.
  - apply Forall_forall. intros t Ht.
    apply list_elem_of_split in Ht as (pre & post & Heq).
    specialize (Hbar pre t post Heq).
    fold (diversityPenalty (N:=Q) (sameServer pre t) (sameCategory pre t))
      in Hbar.
    cbn [jadd jmul jsub jmin jgt jdecimal jcount rational_number] in Hbar.
    apply gt_true in Hbar.
    destruct (diversityPenalty_bounds (sameServer pre t) (sameCategory pre t))
      as [Hp0 Hp1].
    set (p := diversityPenalty _ _) in *. clearbody p.
    destruct (Qlt_le_dec 0.15 (score t)) as [|Hle]; [done|]. exfalso.
    destruct (Qlt_le_dec (score t) 0) as [Hneg|Hpos].
    + assert (score t * (1 - p) <= 0); [|lra].
      rewrite <- (Qmult_0_l (1 - p)). apply Qmult_le_compat_r; lra.
    + assert (score t * (1 - p) <= score t * 1); [|lra].
      rewrite !(Qmult_comm (score t)). apply Qmult_le_compat_r; lra.
Qed.

Lemma hybridLoop_all_accepted (maxTools : nat)
    (tools : list (IToolScore Schema)) (st : HybridState Q Schema) :
  Forall (fun t => 0.3 < score t) tools ->
  (length (selected st) <= maxTools)%nat ->
  hybridLoop maxTools tools st
  = (selected st ++ take (maxTools - length (selected st)) tools)%list.
Proof.
  intros Hall. revert st. induction Hall as [|t tools Ht _ IH]; intros st Hlen.
  - simpl. by rewrite take_nil, app_nil_r.
  - simpl. destruct (maxTools <=? length (selected st))%nat eqn:Efull.
    { apply Nat.leb_le in Efull.
      replace (maxTools - length (selected st))%nat with 0%nat by lia.
      by rewrite app_nil_r. }
    apply Nat.leb_gt in Efull.
    set (sc := default 0%nat (serverCounts st !! serverName t)).
    set (cc := default 0%nat
                 (categoryCounts st !! inferToolCategory (tool t))).
    assert (Hacc : jgt (adjustedScore t sc cc) (jdecimal 0.15) = true).
    { unfold adjustedScore. cbn [jadd jmul jsub jmin jgt jdecimal jcount rational_number].
      apply gt_true.
      destruct (diversityPenalty_bounds sc cc) as [Hp0 Hp1].
      set (p := diversityPenalty sc cc) in *. clearbody p.
      assert (score t * (1 # 2) <= score t * (1 - p)); [|lra].
      rewrite !(Qmult_comm (score t)). apply Qmult_le_compat_r; lra. }
    unfold adjustedScore, diversityPenalty in Hacc.
    cbn [jadd jmul jsub jmin jgt jdecimal jcount rational_number] in Hacc.
    rewrite Hacc, IH; simpl; unfold JS.push.
    + rewrite length_app. simpl.
      destruct (maxTools - length (selected st))%nat as [|k] eqn:Ek; [lia|].
      simpl. rewrite <- app_assoc. simpl.
      by replace (maxTools - (length (selected st) + 1))%nat with k by lia.
    + rewrite length_app. simpl. lia.
Qed.

(** X14. When every tool has an aggregate above 0.3, the diversity penalty
    rules none out: the hybrid strategy returns the first [maxTools] tools
    of its input as they stand. *)
Theorem hybrid_keeps_all_above_03 (tools : list (IToolScore Schema))
    (maxTools : nat) :
  Forall (fun t => 0.3 < score t) tools ->
  selectByHybrid tools maxTools = take maxTools tools.
Proof.
  intros Hall. unfold selectByHybrid.
  rewrite hybridLoop_all_accepted; [|done|simpl; lia].
  simpl. by rewrite Nat.sub_0_r.
Qed.

End MoreSelectorFacts.

(** ** Category, action match and reasoning *)

Section CategoryFacts.
Context {Schema : Type} `{!JSONStringify Schema}.
Local Open Scope Q_scope.

Lemma existsb_concat {A : Type} (f : A -> bool) (ls : list (list A)) :
  existsb f (concat ls) = existsb (existsb f) ls.
Proof.
  induction ls as [|l ls IH]; [done|].
  simpl. by rewrite existsb_app, IH.
Qed.

Lemma inferToolCategory_general (tool : IMCPTool Schema) :
  inferToolCategory tool = "general"
  <-> existsb (fun action => JS.includes (JS.toLowerCase (name tool)) action)
        allActions = false.
Proof.
  unfold inferToolCategory, allActions.
  rewrite existsb_concat.
  set (f := fun action => JS.includes (JS.toLowerCase (name tool)) action).
  destruct (find _ actionPatterns) as [[category actions]|] eqn:E.
  - apply find_some in E as [Hin Hf]. split.
    + intros ->. simpl in Hin.
      repeat (destruct Hin as [Hin|Hin]; [discriminate Hin|]). done.
    + intros Hnone. exfalso.
      assert (Hex : existsb (existsb f) (map snd actionPatterns) = true).
      { apply existsb_exists. exists actions. split; [|exact Hf].
        apply in_map_iff. by exists (category, actions). }
      congruence.
  - split; [intros _|done].
    apply not_true_iff_false. intros Hex.
    apply existsb_exists in Hex as (actions & Hin & Hf).
    apply in_map_iff in Hin as ([category actions'] & Heq & Hin).
    simpl in Heq. subst actions'.
    by pose proof (find_none _ _ E _ Hin) as Hnone; simpl in Hnone;
      congruence.
Qed.

(** X15. A tool falls in the category "general" exactly when no verb of the
    action table occurs in its lower-cased name.  Its action match is then
    what the intent's expected verbs alone give, 0.8 or 0; a tool of any
    other category has an action match of at least 0.6. *)
Theorem category_and_action_match (tool : IMCPTool Schema)
    (intentType prompt : string) :
  (inferToolCategory tool = "general"
   <-> Forall (fun action =>
                 JS.includes (JS.toLowerCase (name tool)) action = false)
              allActions)
  /\ (inferToolCategory tool = "general" ->
      calculateActionMatch tool intentType prompt
      == if existsb (fun action =>
                       JS.includes (JS.toLowerCase (name tool)) action)
                    (expectedActionsOf intentType)
         then 0.8 else 0)
  /\ (inferToolCategory tool <> "general" ->
      0.6 <= calculateActionMatch tool intentType prompt).
Proof.
  pose proof (inferToolCategory_general tool) as Hg.
  pose proof (calculateActionMatch_max tool intentType prompt) as Hmax.
  unfold firstPass, secondPass in Hmax.
  split; [|split].
  - rewrite Hg. rewrite <- not_true_iff_false, existsb_exists, Forall_forall.
    split.
    + intros Hno a Ha. apply not_true_iff_false. intros Hin.
      apply Hno. exists a. split; [by apply list_elem_of_In|done].
    + intros Hall (a & Ha & Hin).
      rewrite (Hall a) in Hin; [done|by apply list_elem_of_In].
  - intros Hgen. apply Hg in Hgen. rewrite Hmax.
    assert (Hboth : existsb
              (fun action =>
                 JS.includes (JS.toLowerCase (name tool)) action
                 && JS.includes (JS.toLowerCase prompt) action) allActions
              = false).
    { apply not_true_iff_false. intros Hex.
      apply existsb_exists in Hex as (a & Ha & Hin).
      apply andb_true_iff in Hin as [Hin _].
      assert (existsb (fun action =>
                JS.includes (JS.toLowerCase (name tool)) action) allActions
              = true) by (apply existsb_exists; eauto).
      congruence. }
    rewrite Hboth, Hgen.
    destruct (existsb _ (expectedActionsOf intentType)); qminmax.
  - intros Hnot. rewrite Hmax.
    assert (E : existsb (fun action =>
                  JS.includes (JS.toLowerCase (name tool)) action) allActions
                = true).
    { apply not_false_iff_true. intros E. apply Hnot. by apply Hg. }
    rewrite E. clear E Hg Hmax.
    destruct (existsb _ allActions);
      destruct (existsb _ (expectedActionsOf intentType)); qminmax.
Qed.

(** X16. The reasoning text is never empty, and it is the fallback clause
    "General utility tool" exactly when no component exceeds 0.7. *)
Theorem reasoning_general_iff (c : Components) (tool : IMCPTool Schema)
    (intent : IUserIntent) :
  generateReasoningExplanation c tool intent <> ""
  /\ (generateReasoningExplanation c tool intent = "General utility tool"
      <-> keywordMatch c <= 0.7 /\ domainRelevance c <= 0.7
          /\ typeRelevance c <= 0.7 /\ actionMatch c <= 0.7).
Proof.
  unfold generateReasoningExplanation.
  destruct (JS.gt (keywordMatch c) 0.7) eqn:Ek;
    destruct (JS.gt (domainRelevance c) 0.7) eqn:Ed;
    destruct (JS.gt (typeRelevance c) 0.7) eqn:Et;
    destruct (JS.gt (actionMatch c) 0.7) eqn:Ea;
    cbn -[JS.string_of_Z JS.round Qmult];
    (split; [discriminate|]);
    repeat match goal with
           | H : JS.gt _ _ = true |- _ => apply gt_true in H
           | H : JS.gt _ _ = false |- _ =>
               apply not_true_iff_false in H; rewrite gt_true in H
           end;
    (split; [try discriminate; intros _; repeat split; lra
            | intros (? & ? & ? & ?); try reflexivity; exfalso; lra]).
Qed.

End CategoryFacts.

(** * Properties of the CircleCI helpers *)

(** ** Substrings *)

Section StringFacts.

Lemma prefix_app (sub s t : string) :
  String.prefix sub s = true -> String.prefix sub (s ++ t) = true.
Proof.
  revert s. induction sub as [|c sub IH]; intros s H.
  - by destruct (s ++ t).
  - destruct s as [|d s]; [done|]. simpl in *.
    destruct (Ascii.ascii_dec c d); [|done]. by apply IH.
Qed.

Lemma includes_app_l (s t sub : string) :
  JS.includes s sub = true -> JS.includes (s ++ t) sub = true.
Proof.
  induction s as [|c s IH]; simpl.
  - rewrite orb_false_r. intros H. destruct sub; [|done].
    by destruct t.
  - intros H. apply orb_true_iff in H as [H|H]; apply orb_true_iff.
    + left. by apply (prefix_app sub (String c s) t).
    + right. by apply IH.
Qed.

Lemma includes_app_r (s t sub : string) :
  JS.includes t sub = true -> JS.includes (s ++ t) sub = true.
Proof.
  intros H. induction s as [|c s IH]; [done|].
  simpl. apply orb_true_iff. by right.
Qed.

Lemma prefix_self_app (s t : string) : String.prefix s (s ++ t) = true.
Proof.
  induction s as [|c s IH]; simpl; [by destruct t|].
  by destruct (Ascii.ascii_dec c c).
Qed.

Lemma dropString_app (s t : string) :
  JS.dropString (String.length s) (s ++ t) = t.
Proof. induction s as [|c s IH]; simpl; [by destruct t|done]. Qed.

Lemma replaceFirst_prefix (pat rest rep : string) :
  JS.replaceFirst (pat ++ rest) pat rep = rep ++ rest.
Proof.
  assert (Hunfold : forall s,
    JS.replaceFirst s pat rep
    = if String.prefix pat s then rep ++ JS.dropString (String.length pat) s
      else match s with
           | EmptyString => EmptyString
           | String c s' => String c (JS.replaceFirst s' pat rep)
           end) by (by intros []).
  by rewrite Hunfold, prefix_self_app, dropString_app.
Qed.

End StringFacts.

(** ** The command line of the trigger script *)

Section TriggerCLIFacts.
Import TriggerCLI.

Lemma assignment_flag (f : Flag) : assignment (flagName f) = Some (setFlag f).
Proof. by destruct f. Qed.

Lemma assignment_not_option (token : string) :
  ~ is_option token -> assignment token = None.
Proof.
  intros Hno. unfold assignment.
  repeat match goal with
  | |- context [String.eqb token ?x] =>
      destruct (String.eqb_spec token x) as [->|_]
  end; try done; exfalso; apply Hno.
  - by exists FPattern.
  - by exists FBranch.
  - by exists FOrg.
  - by exists FRepo.
  - by exists FVcs.
Qed.

Lemma parseLoop_commandLine (items : list Item) (rest : list string)
    (out : Args) :
  Forall (fun item => match item with
                      | Stray token => ~ is_option token
                      | Assign _ _ => True
                      end) items ->
  parseLoop (commandLine items ++ rest) out
  = parseLoop rest (foldl applyItem out items).
Proof.
  intros Hitems. revert out.
  induction Hitems as [|item items Hitem _ IH]; intros out; [done|].
  unfold commandLine in *. simpl. destruct item as [f value|token]; simpl.
  - rewrite assignment_flag. apply IH.
  - rewrite assignment_not_option by done. apply IH.
Qed.

(** X17. On a command line made of options followed by their values and of
    other tokens that are not options, [parseArgs] makes the assignments in
    order, so that a later value of an option replaces an earlier one; it
    takes each value as it stands, also when it reads like an option; and
    it passes over the other tokens. *)
Theorem parseArgs_commandLine (items : list Item) :
  Forall (fun item => match item with
                      | Stray token => ~ is_option token
                      | Assign _ _ => True
                      end) items ->
  parseArgs (commandLine items) = foldl applyItem noArgs items.
Proof.
  intros Hitems. unfold parseArgs.
  rewrite <- (app_nil_r (commandLine items)).
  by rewrite parseLoop_commandLine.
Qed.

(** X18. An option that ends the command line, with no value after it, is
    set to undefined, also when it was given a value before. *)
Theorem parseArgs_dangling_option (items : list Item) (f : Flag) :
  Forall (fun item => match item with
                      | Stray token => ~ is_option token
                      | Assign _ _ => True
                      end) items ->
  parseArgs (commandLine items ++ [flagName f])
  = setFlag f None (parseArgs (commandLine items)).
Proof.
  intros Hitems. unfold parseArgs.
  rewrite parseLoop_commandLine by done. simpl.
  rewrite assignment_flag.
  rewrite <- (app_nil_r (commandLine items)) at 1.
  by rewrite parseLoop_commandLine.
Qed.

End TriggerCLIFacts.

(** ** The proxy server *)

Section ProxyServerFacts.
Import ProxyServer.

Lemma str_or_truthy (x y : option string) :
  JS.truthy (JS.str_or x y) = JS.truthy x || JS.truthy y.
Proof. unfold JS.str_or. by destruct (JS.truthy x) eqn:E. Qed.

Lemma circleciProxy_with_token (Data : Type)
    (call : string -> string -> AxiosResult Data) (env : Env)
    (path token : string) :
  token <> "" ->
  circleciProxy call env path (Some token)
  = match call ("https://circleci.com/api/v2/"
                ++ JS.replaceFirst path "/api/circleci/" "") token with
    | Resolved data => {| statusCode := 200; body := Upstream data |}
    | AxiosError message response =>
        {| statusCode :=
             status_or_500 (match response with
                            | Some (st, _) => Some st
                            | None => None
                            end);
           body :=
             match response with
             | Some (_, Some data) => Upstream data
             | _ => ErrorBody message
             end |}
    | OtherError message => {| statusCode := 500; body := ErrorBody message |}
    end.
Proof.
  intros Hc. unfold circleciProxy.
  assert (Ht : JS.truthy (Some token) = true).
  { simpl. by apply negb_true_iff, String.eqb_neq. }
  assert (Hor : forall y, JS.str_or (Some token) y = Some token).
  { intros y. unfold JS.str_or. by rewrite Ht. }
  by rewrite Hor, Ht.
Qed.

Lemma circleciProxy_chosen_token (Data : Type)
    (call : string -> string -> AxiosResult Data) (env : Env)
    (path token : string) (clientToken : option string) :
  JS.str_or clientToken (serverToken env) = Some token ->
  token <> "" ->
  circleciProxy call env path clientToken
  = match call ("https://circleci.com/api/v2/"
                ++ JS.replaceFirst path "/api/circleci/" "") token with
    | Resolved data => {| statusCode := 200; body := Upstream data |}
    | AxiosError message response =>
        {| statusCode :=
             status_or_500 (match response with
                            | Some (st, _) => Some st
                            | None => None
                            end);
           body :=
             match response with
             | Some (_, Some data) => Upstream data
             | _ => ErrorBody message
             end |}
    | OtherError message => {| statusCode := 500; body := ErrorBody message |}
    end.
Proof.
  intros Hsel Hne. unfold circleciProxy. unfold serverToken in Hsel.
  rewrite Hsel.
  assert (Ht : JS.truthy (Some token) = true).
  { simpl. by apply negb_true_iff, String.eqb_neq. }
  by rewrite Ht.
Qed.

(** X19. The status handler and the CircleCI proxy agree on whether there
    is a token: when the status says there is none, the proxy answers 401
    without calling CircleCI, whatever the path; when it says there is
    one, the proxy calls CircleCI, at the path mapped to the API, with the
    token of the client if it sent one and with the token of the server
    otherwise, and it answers by how that call ends: 200 with the data
    when it resolves, the status (500 for none) and the data (the message
    for none) of an axios error, 500 with the message of another error. *)
Theorem status_agrees_with_proxy (Data : Type)
    (call : string -> string -> AxiosResult Data) (env : Env)
    (currentBranch path : string) (clientToken : option string) :
  (hasToken (status env currentBranch clientToken) = false ->
   circleciProxy call env path clientToken
   = {| statusCode := 401;
        body := ErrorBody
          "CIRCLECI_TOKEN not configured. Set it in .env.local or via UI." |})
  /\ (hasToken (status env currentBranch clientToken) = true ->
      exists token,
        token = (if JS.truthy clientToken then default "" clientToken
                 else default "" (serverToken env))
        /\ token <> ""
        /\ circleciProxy call env path clientToken
           = match call ("https://circleci.com/api/v2/"
                       ++ JS.replaceFirst path "/api/circleci/" "") token with
           | Resolved data => {| statusCode := 200; body := Upstream data |}
           | AxiosError message response =>
               {| statusCode :=
                    status_or_500 (match response with
                                   | Some (st, _) => Some st
                                   | None => None
                                   end);
                  body :=
                    match response with
                    | Some (_, Some data) => Upstream data
                    | _ => ErrorBody message
                    end |}
           | OtherError message => {| statusCode := 500; body := ErrorBody message |}
           end).
Proof.
  split; intros H.
  - unfold status, circleciProxy in *. simpl in H.
    set (server := JS.str_or (CIRCLECI_TOKEN env) (CIRCLE_TOKEN env)) in *.
    pose proof (str_or_truthy clientToken server) as Ht.
    rewrite (orb_comm (JS.truthy clientToken)), H in Ht.
    rewrite Ht. by destruct (JS.str_or clientToken server).
  - assert (Ht : JS.truthy (JS.str_or clientToken (serverToken env)) = true).
    { rewrite str_or_truthy, orb_comm. exact H. }
    destruct (JS.str_or clientToken (serverToken env)) as [token|] eqn:E;
      [|done].
    assert (Hne : token <> "").
    { intros ->. done. }
    exists token. split; [|split; [exact Hne|]].
    + unfold JS.str_or in E. destruct (JS.truthy clientToken).
      * by rewrite E.
      * by rewrite E.
    + by apply circleciProxy_chosen_token.
Qed.

(** X20. When both the server and the client have a token, the status
    handler names the server as the source of the token, yet the proxy
    sends the token of the client to CircleCI. *)
Theorem token_source_differs_from_token_used (Data : Type)
    (call : string -> string -> AxiosResult Data) (env : Env)
    (currentBranch rest : string) (client : string) (data : Data) :
  JS.truthy (serverToken env) = true ->
  client <> "" ->
  call ("https://circleci.com/api/v2/" ++ rest) client = Resolved data ->
  tokenSource (status env currentBranch (Some client)) = "server (.env.local)"
  /\ circleciProxy call env ("/api/circleci/" ++ rest) (Some client)
     = {| statusCode := 200; body := Upstream data |}.
Proof.
  intros Hs Hc Hcall. split.
  - unfold status, serverToken in *. simpl. by rewrite Hs.
  - rewrite circleciProxy_with_token by done.
    rewrite replaceFirst_prefix. change ("" ++ rest) with rest.
    by rewrite Hcall.
Qed.

(** X21. For a request with a token, the proxy maps the path
    /api/circleci/<rest> to https://circleci.com/api/v2/<rest>; it answers
    200 with the data when the call resolves; when axios throws with an
    answer of CircleCI it passes on the status of that answer (500 if that
    is 0) and its data (the message of the error if there is none); and it
    answers 500 with the message for any other error. *)
Theorem proxy_forwards (Data : Type)
    (call : string -> string -> AxiosResult Data) (env : Env)
    (rest : string) (token : string) :
  token <> "" ->
  let response :=
    circleciProxy call env ("/api/circleci/" ++ rest) (Some token) in
  match call ("https://circleci.com/api/v2/" ++ rest) token with
  | Resolved data => response = {| statusCode := 200; body := Upstream data |}
  | AxiosError message (Some (st, data)) =>
      statusCode response = (if (st =? 0)%nat then 500%nat else st)
      /\ body response = match data with
                         | Some d => Upstream d
                         | None => ErrorBody message
                         end
  | AxiosError message None =>
      response = {| statusCode := 500; body := ErrorBody message |}
  | OtherError message =>
      response = {| statusCode := 500; body := ErrorBody message |}
  end.
Proof.
  intros Hc response. unfold response.
  rewrite circleciProxy_with_token by done.
  rewrite replaceFirst_prefix. change ("" ++ rest) with rest.
  destruct (call _ token) as [data|message [[st data]|]|message]; try done.
  split; [by destruct st|done].
Qed.

(** X22. When the server has no token, the trigger handler answers every
    request either 400, for a missing test name, or 500 with the message
    that the token is not set on the server: the script it spawns stops at
    its token check, and the handler recognises what it writes. *)
Theorem trigger_without_server_token
    (matchUrl matchPipelineId : string -> option string) (env : Env)
    (rest : string -> TriggerCLI.Args -> ChildResult)
    (reqBody : option TriggerRequest) :
  JS.truthy (serverToken env) = false ->
  let response :=
    trigger matchUrl matchPipelineId (runScript env rest) reqBody in
  (triggerStatus response = 400%nat
   /\ triggerBody response = TriggerError "Missing test name" None)
  \/ (triggerStatus response = 500%nat
      /\ exists url pipelineId output,
           triggerBody response
           = TriggerFailed
               "CIRCLECI_TOKEN environment variable not set. Please set it on the server and restart."
               url pipelineId output).
Proof.
  intros Hs. unfold trigger, runScript, TriggerCLI.main, serverToken in *.
  destruct reqBody as [[[t|] browser]|]; simpl; [|by left..].
  destruct (negb (String.eqb t "")); [|by left].
  right. rewrite Hs.
  destruct (JS.str_or _ _); (split; [done|]); eauto.
Qed.

(** X23. When the server has a token, the script the trigger handler
    spawns for a test name always passes its two checks and goes on with
    that name as its pattern, whatever the name is, also one that reads
    like an option. *)
Theorem trigger_script_proceeds
    (matchUrl matchPipelineId : string -> option string) (env : Env)
    (rest : string -> TriggerCLI.Args -> ChildResult)
    (testName : string) (browser : option string) :
  JS.truthy (serverToken env) = true ->
  testName <> "" ->
  exists token,
    serverToken env = Some token
    /\ runScript env rest ["--pattern"; testName]
       = rest token
           {| TriggerCLI.pattern := Some testName;
              TriggerCLI.branch := None; TriggerCLI.org := None;
              TriggerCLI.repo := None; TriggerCLI.vcs := None |}
    /\ trigger matchUrl matchPipelineId (runScript env rest)
         (Some {| test := Some testName; browser := browser |})
       = match rest token
                 {| TriggerCLI.pattern := Some testName;
                    TriggerCLI.branch := None; TriggerCLI.org := None;
                    TriggerCLI.repo := None; TriggerCLI.vcs := None |}
         with
         | Closed code output => onClose matchUrl matchPipelineId code output
         | SpawnFailed message =>
             {| triggerStatus := 500;
                triggerBody :=
                  TriggerError "Failed to spawn trigger process"
                    (Some message) |}
         end.
Proof.
  intros Hs Hn. unfold serverToken in *.
  assert (Ht : negb (String.eqb testName "") = true).
  { by apply negb_true_iff, String.eqb_neq. }
  destruct (JS.str_or (CIRCLECI_TOKEN env) (CIRCLE_TOKEN env)) as [token|]
    eqn:E; [|done].
  exists token. split; [done|].
  assert (Hrun : runScript env rest ["--pattern"; testName]
                 = rest token
                     {| TriggerCLI.pattern := Some testName;
                        TriggerCLI.branch := None; TriggerCLI.org := None;
                        TriggerCLI.repo := None; TriggerCLI.vcs := None |}).
  { unfold runScript, TriggerCLI.main. rewrite E, Hs. simpl. by rewrite Ht. }
  split; [exact Hrun|].
  unfold trigger. simpl. by rewrite Ht, Hrun.
Qed.

(** X24. A script that exits with a code other than 0 after writing its
    missing-token line is reported with the message that the token is not
    set, wherever the line stands in the output and whatever else the
    output holds. *)
Theorem onClose_missing_token_line
    (matchUrl matchPipelineId : string -> option string)
    (code : option Z) (before after : string) :
  code <> Some 0%Z ->
  let output :=
    before
    ++ "Error: CIRCLECI_TOKEN env var is required to trigger CircleCI."
    ++ after in
  onClose matchUrl matchPipelineId code output
  = {| triggerStatus := 500;
       triggerBody :=
         TriggerFailed
           "CIRCLECI_TOKEN environment variable not set. Please set it on the server and restart."
           (matchUrl output) (matchPipelineId output) output |}.
Proof.
  intros Hcode output. unfold onClose.
  assert (Hin : JS.includes output "CIRCLECI_TOKEN env var is required" = true).
  { apply includes_app_r, includes_app_l. reflexivity. }
  rewrite Hin.
  destruct code as [[| |]|]; try done.
Qed.

End ProxyServerFacts.

(** ** The summary of a pipeline *)

Section ApiClientFacts.
Import ApiClient.

Lemma countTotal_step (m : gmap string nat) (k : string) :
  countTotal (<[k := (default 0%nat (m !! k) + 1)%nat]> m)
  = S (countTotal m).
Proof.
  unfold countTotal.
  assert (Hcomm : forall (m' : gmap string nat) (j1 j2 : string)
                         (z1 z2 y : nat),
             j1 <> j2 -> m' !! j1 = Some z1 -> m' !! j2 = Some z2 ->
             (z1 + (z2 + y) = z2 + (z1 + y))%nat) by (intros; lia).
  destruct (m !! k) as [n|] eqn:E; simpl.
  - rewrite <- insert_delete_eq.
    rewrite map_fold_insert_L;
      [|by intros; lia|by rewrite lookup_delete_eq].
    rewrite (map_fold_delete_L _ _ k n m); [lia|by intros; lia|done].
  - rewrite map_fold_insert_L; [lia|by intros; lia|done].
Qed.

Lemma counts_loop_total (workflows : list Workflow) (acc : gmap string nat) :
  countTotal (foldl countStep acc workflows)
  = (countTotal acc + length workflows)%nat.
Proof.
  revert acc. induction workflows as [|wf wfs IH]; intros acc; simpl; [lia|].
  rewrite IH. unfold countStep. rewrite countTotal_step. lia.
Qed.

Lemma counts_loop_lookup (workflows : list Workflow) (acc : gmap string nat)
    (k : string) :
  default 0%nat (foldl countStep acc workflows !! k)
  = (default 0%nat (acc !! k)
     + length (filter (fun wf => statusKey wf = k) workflows))%nat.
Proof.
  revert acc. induction workflows as [|wf wfs IH]; intros acc; simpl; [lia|].
  rewrite IH. unfold countStep. fold (statusKey wf).
  destruct (decide (statusKey wf = k)) as [<-|Hne].
  - rewrite lookup_insert_eq, filter_cons_True by done. simpl. lia.
  - rewrite lookup_insert_ne, filter_cons_False by done. lia.
Qed.

Lemma counts_loop_positive (workflows : list Workflow)
    (acc : gmap string nat) :
  (forall k n, acc !! k = Some n -> (0 < n)%nat) ->
  forall k n, foldl countStep acc workflows !! k = Some n -> (0 < n)%nat.
Proof.
  revert acc. induction workflows as [|wf wfs IH]; intros acc Hacc; [done|].
  simpl. apply IH. intros k n. unfold countStep.
  destruct (decide (statusKey wf = k)) as [<-|Hne].
  - fold (statusKey wf). rewrite lookup_insert_eq. intros [= <-]. lia.
  - fold (statusKey wf). rewrite lookup_insert_ne by done. apply Hacc.
Qed.

(** X25. When no workflow has a status that, lower-cased, is a name
    inherited from [Object.prototype], the summary counts every workflow
    once: under each key the count is the number of workflows whose
    lower-cased status (unknown for a missing or empty one) is that key,
    no key is kept with the count 0, and the counts add up to the total,
    the number of workflows. *)
Theorem summary_counts (workflows : list Workflow) :
  Forall (fun wf => JS.inherited (statusKey wf) = false) workflows ->
  let s := summary workflows in
  (forall k, default 0%nat (counts s !! k)
             = length (filter (fun wf => statusKey wf = k) workflows))
  /\ (forall k, counts s !! k <> Some 0%nat)
  /\ countTotal (counts s) = total s
  /\ total s = length workflows.
Proof.
  intros _. simpl. split; [|split; [|split; [|done]]].
  - intros k. rewrite counts_loop_lookup. by rewrite lookup_empty.
  - intros k Hk.
    apply (counts_loop_positive workflows ∅) in Hk; [lia|].
    intros k' n. by rewrite lookup_empty.
  - rewrite counts_loop_total. unfold countTotal. by rewrite map_fold_empty.
Qed.

Lemma isTerminal_key (wf : Workflow) :
  isTerminal (JS.toLowerCase (default "" (JS.str_or (status wf) (Some ""))))
  = isTerminal (statusKey wf).
Proof.
  unfold statusKey, JS.str_or. destruct (JS.truthy (status wf)) eqn:E; [done|].
  reflexivity.
Qed.

(** X26. When no workflow has a status that, lower-cased, is a name
    inherited from [Object.prototype], the summary is done exactly when
    there is at least one workflow and every status it counts is one of
    success, failed, canceled and error; a pipeline without workflows is
    never done. *)
Theorem summary_done_iff (workflows : list Workflow) :
  Forall (fun wf => JS.inherited (statusKey wf) = false) workflows ->
  let s := summary workflows in
  (done s = true
   <-> workflows <> []
       /\ forall k n, counts s !! k = Some n -> isTerminal k = true)
  /\ done (summary []) = false.
Proof.
  intros _. simpl. split; [|done].
  rewrite andb_true_iff, Nat.ltb_lt, forallb_forall.
  assert (Hkeys : forall k,
    (exists n, foldl countStep ∅ workflows !! k = Some n)
    <-> exists wf, In wf workflows /\ statusKey wf = k).
  { intros k. pose proof (counts_loop_lookup workflows ∅ k) as Hl.
    rewrite lookup_empty in Hl. simpl in Hl. split.
    - intros [n Hn].
      pose proof (counts_loop_positive workflows ∅
                    ltac:(intros ? ?; by rewrite lookup_empty) k n Hn) as Hp.
      rewrite Hn in Hl. simpl in Hl.
      destruct (filter (fun wf => statusKey wf = k) workflows) as [|wf l]
        eqn:Ef; [simpl in Hl; lia|].
      assert (Hwf : wf ∈ filter (fun wf => statusKey wf = k) workflows)
        by (rewrite Ef; left).
      apply list_elem_of_filter in Hwf as [Hk Hwf].
      exists wf. split; [by apply list_elem_of_In|done].
    - intros (wf & Hwf & Hk).
      destruct (foldl countStep ∅ workflows !! k) as [n|] eqn:En; [eauto|].
      simpl in Hl.
      assert (Hin : wf ∈ filter (fun wf => statusKey wf = k) workflows).
      { apply list_elem_of_filter. split; [done|by apply list_elem_of_In]. }
      destruct (filter _ workflows); [by apply not_elem_of_nil in Hin|].
      simpl in Hl. lia. }
  split.
  - intros [Hlen Hall]. split; [by destruct workflows; simpl in Hlen; try lia|].
    intros k n Hk.
    destruct (proj1 (Hkeys k) (ex_intro _ n Hk)) as (wf & Hwf & <-).
    rewrite <- isTerminal_key. by apply Hall.
  - intros [Hne Hall]. split; [destruct workflows; [done|simpl; lia]|].
    intros wf Hwf. rewrite isTerminal_key.
    destruct (proj2 (Hkeys (statusKey wf))) as [n Hn]; [by exists wf|].
    by eapply Hall.
Qed.

End ApiClientFacts.

(** ** The further properties at concrete inputs *)

Section MoreConcrete.
Local Open Scope Q_scope.

Lemma keywordMatch_zero_iff_witness :
  ["foobar"] <> []
  /\ calculateKeywordMatch unrelated_tool ["foobar"] "x" == 0.
Proof.
  assert (H : ["foobar"] <> []) by discriminate.
  split; [exact H|].
  apply (proj2 (keywordMatch_zero_iff unrelated_tool ["foobar"] "x" H)).
  split; [repeat constructor|reflexivity].
Defined.

Lemma keywordMatch_all_direct_witness :
  ["compile"; "Solidity"] <> []
  /\ Forall (fun k => JS.includes (keywordToolText compile_contract)
                        (JS.toLowerCase k) = true) ["compile"; "Solidity"]
  /\ calculateKeywordMatch compile_contract ["compile"; "Solidity"] "x" == 1.
Proof.
  assert (H : ["compile"; "Solidity"] <> []) by discriminate.
  assert (Hall : Forall (fun k => JS.includes (keywordToolText compile_contract)
                                    (JS.toLowerCase k) = true)
                   ["compile"; "Solidity"]) by (repeat constructor).
  split; [exact H|]. split; [exact Hall|].
  exact (keywordMatch_all_direct compile_contract ["compile"; "Solidity"] "x"
           H Hall).
Defined.

Lemma keywordMatch_mean_without_bonus_witness :
  ["compile"; "foobar"] <> []
  /\ JS.includes (JS.toLowerCase "please compile my contract")
       (JS.toLowerCase (name compile_contract)) = false
  /\ calculateKeywordMatch compile_contract ["compile"; "foobar"]
       "please compile my contract"
     == Qsum (map (keywordAward (keywordToolText compile_contract))
                ["compile"; "foobar"])
        / num (length ["compile"; "foobar"]).
Proof.
  assert (H : ["compile"; "foobar"] <> []) by discriminate.
  assert (Hno : JS.includes (JS.toLowerCase "please compile my contract")
                  (JS.toLowerCase (name compile_contract)) = false)
    by reflexivity.
  split; [exact H|]. split; [exact Hno|].
  exact (proj2 (keywordMatch_mean_without_bonus compile_contract
                  ["compile"; "foobar"] "please compile my contract" H) Hno).
Defined.

Lemma scoreTools_scores_in_unit_interval_witness :
  let params :=
    {| domainWeights := Some {[ "solidity" := 0.5 ]};
       toolRelevanceThreshold := None; maxTools := None;
       selectionStrategy := None |} in
  (forall ov d w, domainWeights params = Some ov -> ov !! d = Some w ->
                  0 <= w /\ w <= 1)
  /\ Forall (fun t : IToolScore string => 0 <= score t /\ score t <= 1)
       (scoreTools [(compile_contract, "remix")] coding_intent
          "please compile my contract" params).
Proof.
  intros params.
  assert (H : forall ov d w, domainWeights params = Some ov ->
                             ov !! d = Some w -> 0 <= w /\ w <= 1).
  { intros ov d w [= <-] Hd.
    apply lookup_singleton_Some in Hd as [_ <-]. split; discriminate. }
  split; [exact H|].
  eapply Forall_impl;
    [exact (scoreTools_scores_in_unit_interval
              [(compile_contract, "remix")] coding_intent
              "please compile my contract" params H)|].
  intros t Ht. exact (proj1 Ht).
Defined.

Lemma domainRelevance_mean_of_matched_witness :
  ["solidity"; "react"; "contracts"] <> []
  /\ matchedDomains (domainToolText compile_contract)
       ["solidity"; "react"; "contracts"] = ["solidity"; "contracts"]
  /\ Forall (fun d => JS.inherited d = false) ["solidity"; "contracts"]
  /\ calculateDomainRelevance compile_contract
       ["solidity"; "react"; "contracts"] defaultDomainWeights
     == Qsum (map (domainWeightOf defaultDomainWeights)
                ["solidity"; "contracts"]) / num 2.
Proof.
  assert (H : ["solidity"; "react"; "contracts"] <> []) by discriminate.
  assert (Hd : Forall (fun d => JS.inherited d = false)
                 ["solidity"; "contracts"]) by (repeat constructor).
  split; [exact H|]. split; [reflexivity|]. split; [exact Hd|].
  exact (domainRelevance_mean_of_matched compile_contract
           ["solidity"; "react"; "contracts"] defaultDomainWeights H Hd).
Defined.

Lemma unmatched_domain_ignored_witness :
  (["solidity"] ++ [])%list <> []
  /\ JS.includes (domainToolText compile_contract) (JS.toLowerCase "react")
     = false
  /\ calculateDomainRelevance compile_contract
       (["solidity"] ++ "react" :: []) defaultDomainWeights
     = calculateDomainRelevance compile_contract (["solidity"] ++ [])
         defaultDomainWeights.
Proof.
  assert (H : (["solidity"] ++ [])%list <> []) by discriminate.
  assert (Hno : JS.includes (domainToolText compile_contract)
                  (JS.toLowerCase "react") = false) by reflexivity.
  split; [exact H|]. split; [exact Hno|].
  exact (unmatched_domain_ignored compile_contract ["solidity"] [] "react"
           defaultDomainWeights H Hno).
Defined.

Lemma hybrid_keeps_all_above_03_witness :
  Forall (fun t : IToolScore string => 0.3 < score t)
    [compile_a; compile_b; compile_c]
  /\ selectByHybrid [compile_a; compile_b; compile_c] 2
     = take 2 [compile_a; compile_b; compile_c].
Proof.
  assert (H : Forall (fun t : IToolScore string => 0.3 < score t)
                [compile_a; compile_b; compile_c])
    by (repeat constructor).
  split; [exact H|].
  exact (hybrid_keeps_all_above_03 [compile_a; compile_b; compile_c] 2 H).
Defined.

Lemma category_and_action_match_witness :
  (inferToolCategory unrelated_tool = "general"
   /\ calculateActionMatch unrelated_tool "coding" "x"
      == if existsb (fun action =>
                       JS.includes (JS.toLowerCase (name unrelated_tool))
                         action) (expectedActionsOf "coding")
         then 0.8 else 0)
  /\ (inferToolCategory compile_contract <> "general"
      /\ 0.6 <= calculateActionMatch compile_contract "coding" "x").
Proof.
  assert (H1 : inferToolCategory unrelated_tool = "general") by reflexivity.
  assert (H2 : inferToolCategory compile_contract <> "general")
    by discriminate.
  split; (split; [done|]).
  - exact (proj1 (proj2 (category_and_action_match unrelated_tool "coding"
                           "x")) H1).
  - exact (proj2 (proj2 (category_and_action_match compile_contract "coding"
                           "x")) H2).
Defined.

Lemma not_option_extra : ~ TriggerCLI.is_option "extra".
Proof. intros [f Hf]. by destruct f. Qed.

Lemma parseArgs_commandLine_witness :
  let items :=
    [TriggerCLI.Assign TriggerCLI.FPattern "--branch";
     TriggerCLI.Stray "extra";
     TriggerCLI.Assign TriggerCLI.FOrg "remix";
     TriggerCLI.Assign TriggerCLI.FPattern "url"] in
  TriggerCLI.commandLine items
  = ["--pattern"; "--branch"; "extra"; "--org"; "remix"; "--pattern"; "url"]
  /\ TriggerCLI.parseArgs (TriggerCLI.commandLine items)
     = {| TriggerCLI.pattern := Some "url"; TriggerCLI.branch := None;
          TriggerCLI.org := Some "remix"; TriggerCLI.repo := None;
          TriggerCLI.vcs := None |}.
Proof.
  intros items. split; [reflexivity|].
  refine (eq_trans (parseArgs_commandLine items _) eq_refl).
  repeat constructor. exact not_option_extra.
Defined.

Lemma parseArgs_dangling_option_witness :
  let items := [TriggerCLI.Assign TriggerCLI.FPattern "url"] in
  TriggerCLI.parseArgs (TriggerCLI.commandLine items ++ ["--pattern"])
  = TriggerCLI.setFlag TriggerCLI.FPattern None
      (TriggerCLI.parseArgs (TriggerCLI.commandLine items))
  /\ TriggerCLI.pattern
       (TriggerCLI.parseArgs ["--pattern"; "url"; "--pattern"]) = None.
Proof.
  intros items.
  assert (H : TriggerCLI.parseArgs
                (TriggerCLI.commandLine items ++ ["--pattern"])
              = TriggerCLI.setFlag TriggerCLI.FPattern None
                  (TriggerCLI.parseArgs (TriggerCLI.commandLine items))).
  { apply (parseArgs_dangling_option items TriggerCLI.FPattern).
    repeat constructor. }
  split; [exact H|]. reflexivity.
Defined.

Lemma status_agrees_with_proxy_witness :
  let call := fun url token : string =>
    ProxyServer.Resolved (url ++ " " ++ token) in
  let none :=
    {| ProxyServer.CIRCLECI_TOKEN := None;
       ProxyServer.CIRCLE_TOKEN := Some "" |} in
  let server :=
    {| ProxyServer.CIRCLECI_TOKEN := None;
       ProxyServer.CIRCLE_TOKEN := Some "srv" |} in
  (ProxyServer.hasToken (ProxyServer.status none "master" None) = false
   /\ ProxyServer.circleciProxy call none "/api/circleci/me" None
      = {| ProxyServer.statusCode := 401;
           ProxyServer.body := ProxyServer.ErrorBody
             "CIRCLECI_TOKEN not configured. Set it in .env.local or via UI."
        |})
  /\ (ProxyServer.hasToken (ProxyServer.status server "master" None) = true
      /\ ProxyServer.circleciProxy call server "/api/circleci/me" None
         = {| ProxyServer.statusCode := 200;
              ProxyServer.body := ProxyServer.Upstream
                "https://circleci.com/api/v2/me srv" |}).
Proof.
  intros call none server. split.
  - assert (H : ProxyServer.hasToken (ProxyServer.status none "master" None)
                = false) by reflexivity.
    split; [exact H|].
    exact (proj1 (status_agrees_with_proxy string call none "master"
                    "/api/circleci/me" None) H).
  - assert (H : ProxyServer.hasToken
                  (ProxyServer.status server "master" None) = true)
      by reflexivity.
    split; [exact H|].
    destruct (proj2 (status_agrees_with_proxy string call server "master"
                       "/api/circleci/me" None) H)
      as (token & H1 & _ & H3).
    rewrite H3, H1. reflexivity.
Defined.

Lemma token_source_differs_from_token_used_witness :
  let call := fun url token : string =>
    ProxyServer.Resolved (url ++ " " ++ token) in
  let env :=
    {| ProxyServer.CIRCLECI_TOKEN := Some "server";
       ProxyServer.CIRCLE_TOKEN := None |} in
  JS.truthy (ProxyServer.serverToken env) = true
  /\ "client" <> ""
  /\ ProxyServer.tokenSource (ProxyServer.status env "master" (Some "client"))
     = "server (.env.local)"
  /\ ProxyServer.circleciProxy call env "/api/circleci/me" (Some "client")
     = {| ProxyServer.statusCode := 200;
          ProxyServer.body :=
            ProxyServer.Upstream "https://circleci.com/api/v2/me client" |}.
Proof.
  intros call env.
  assert (H1 : JS.truthy (ProxyServer.serverToken env) = true) by reflexivity.
  assert (H2 : "client" <> "") by discriminate.
  split; [exact H1|]. split; [exact H2|].
  exact (token_source_differs_from_token_used string call env "master" "me"
           "client" "https://circleci.com/api/v2/me client" H1 H2 eq_refl).
Defined.

Lemma proxy_forwards_witness :
  let call := fun url token : string =>
    ProxyServer.AxiosError "Request failed"
      (Some (404%nat, @None string)) in
  let env :=
    {| ProxyServer.CIRCLECI_TOKEN := None; ProxyServer.CIRCLE_TOKEN := None |}
  in
  "client" <> ""
  /\ ProxyServer.statusCode
       (ProxyServer.circleciProxy call env "/api/circleci/pipeline/1"
          (Some "client")) = 404%nat
  /\ ProxyServer.body
       (ProxyServer.circleciProxy call env "/api/circleci/pipeline/1"
          (Some "client")) = ProxyServer.ErrorBody "Request failed".
Proof.
  intros call env.
  assert (H : "client" <> "") by discriminate.
  split; [exact H|].
  exact (proxy_forwards string call env "pipeline/1" "client" H).
Defined.

Lemma trigger_without_server_token_witness :
  let env :=
    {| ProxyServer.CIRCLECI_TOKEN := None; ProxyServer.CIRCLE_TOKEN := None |}
  in
  let rest := fun (_ : string) (_ : TriggerCLI.Args) =>
    ProxyServer.Closed (Some 0%Z) "" in
  let response :=
    ProxyServer.trigger (fun _ => None) (fun _ => None)
      (ProxyServer.runScript env rest)
      (Some {| ProxyServer.test := Some "url_group1";
               ProxyServer.browser := None |}) in
  JS.truthy (ProxyServer.serverToken env) = false
  /\ ProxyServer.triggerStatus response = 500%nat.
Proof.
  intros env rest response.
  assert (H : JS.truthy (ProxyServer.serverToken env) = false) by reflexivity.
  split; [exact H|].
  destruct (trigger_without_server_token (fun _ => None) (fun _ => None) env
              rest
              (Some {| ProxyServer.test := Some "url_group1";
                       ProxyServer.browser := None |}) H)
    as [[H400 _]|[H500 _]].
  - discriminate H400.
  - exact H500.
Defined.

Lemma trigger_script_proceeds_witness :
  let env :=
    {| ProxyServer.CIRCLECI_TOKEN := Some "server";
       ProxyServer.CIRCLE_TOKEN := None |} in
  let rest := fun (token : string) (args : TriggerCLI.Args) =>
    ProxyServer.Closed (Some 0%Z)
      (default "" (TriggerCLI.pattern args)) in
  JS.truthy (ProxyServer.serverToken env) = true
  /\ "--branch" <> ""
  /\ ProxyServer.runScript env rest ["--pattern"; "--branch"]
     = ProxyServer.Closed (Some 0%Z) "--branch".
Proof.
  intros env rest.
  assert (H1 : JS.truthy (ProxyServer.serverToken env) = true) by reflexivity.
  assert (H2 : "--branch" <> "") by discriminate.
  split; [exact H1|]. split; [exact H2|].
  destruct (trigger_script_proceeds (fun _ => None) (fun _ => None) env rest
              "--branch" None H1 H2) as (token & _ & Hrun & _).
  exact Hrun.
Defined.

Lemma onClose_missing_token_line_witness :
  Some 1%Z <> Some 0%Z
  /\ ProxyServer.triggerStatus
       (ProxyServer.onClose (fun _ => None) (fun _ => None) (Some 1%Z)
          ("HTTP 401 "
           ++ "Error: CIRCLECI_TOKEN env var is required to trigger CircleCI."
           ++ " Unauthorized")) = 500%nat.
Proof.
  assert (H : Some 1%Z <> Some 0%Z) by discriminate.
  split; [exact H|].
  exact (f_equal ProxyServer.triggerStatus
           (onClose_missing_token_line (fun _ => None) (fun _ => None)
              (Some 1%Z) "HTTP 401 " " Unauthorized" H)).
Defined.

Lemma typeRelevance_three_values_witness :
  (JS.inherited "translation" = false
   /\ calculateTypeRelevance compile_contract "translation" = 0.5%Q)
  /\ (JS.inherited "coding" = false
      /\ calculateTypeRelevance compile_contract "coding" = 1.0%Q)
  /\ (JS.inherited "debugging" = false
      /\ calculateTypeRelevance compile_contract "debugging" = 0.3%Q).
Proof.
  assert (H1 : JS.inherited "translation" = false) by reflexivity.
  assert (H2 : JS.inherited "coding" = false) by reflexivity.
  assert (H3 : JS.inherited "debugging" = false) by reflexivity.
  split; [|split]; (split; [assumption|]).
  - rewrite (typeRelevance_three_values compile_contract "translation" H1).
    reflexivity.
  - rewrite (typeRelevance_three_values compile_contract "coding" H2).
    reflexivity.
  - rewrite (typeRelevance_three_values compile_contract "debugging" H3).
    reflexivity.
Defined.

Lemma summary_counts_witness :
  let workflows :=
    [ {| ApiClient.id := "a"; ApiClient.status := Some "SUCCESS" |};
      {| ApiClient.id := "b"; ApiClient.status := Some "failed" |};
      {| ApiClient.id := "c"; ApiClient.status := None |} ] in
  Forall (fun wf => JS.inherited (ApiClient.statusKey wf) = false) workflows
  /\ ApiClient.countTotal (ApiClient.counts (ApiClient.summary workflows))
     = 3%nat.
Proof.
  intros workflows.
  assert (H : Forall (fun wf => JS.inherited (ApiClient.statusKey wf) = false)
                workflows) by (repeat constructor).
  split; [exact H|].
  pose proof (summary_counts workflows H) as Hs. cbv zeta in Hs.
  destruct Hs as (_ & _ & H3 & H4). rewrite H3. exact H4.
Defined.

Lemma summary_done_iff_witness :
  let workflows :=
    [ {| ApiClient.id := "a"; ApiClient.status := Some "Success" |};
      {| ApiClient.id := "b"; ApiClient.status := Some "FAILED" |} ] in
  Forall (fun wf => JS.inherited (ApiClient.statusKey wf) = false) workflows
  /\ ApiClient.done (ApiClient.summary workflows) = true
  /\ (workflows <> []
      /\ forall k n,
           ApiClient.counts (ApiClient.summary workflows) !! k = Some n ->
           ApiClient.isTerminal k = true).
Proof.
  intros workflows.
  assert (H : Forall (fun wf => JS.inherited (ApiClient.statusKey wf) = false)
                workflows) by (repeat constructor).
  assert (Hd : ApiClient.done (ApiClient.summary workflows) = true)
    by reflexivity.
  split; [exact H|]. split; [exact Hd|].
  pose proof (summary_done_iff workflows H) as Hs. cbv zeta in Hs.
  exact (proj1 (proj1 Hs) Hd).
Defined.

(** *** Further checks *)

(** The borderline list under the two number systems: the doubles of the
    code accept the third tool, whose adjusted score is the double next
    above 0.15; exact rationals would leave it out, at 0.15 itself. *)
Example hybrid_borderline :
  map (fun t => name (tool t)) (selectByHybrid (borderline PrimFloat.float) 3)
  = ["compile_x"; "build_y"; "verify_z"]
  /\ map (fun t => name (tool t)) (selectByHybrid (borderline Q) 3)
     = ["compile_x"; "build_y"].
Proof. split; vm_compute; reflexivity. Qed.

(** A domain the properties stated for own keys leave out: the tool text
    matches it, the built-in weights have no such key, and it is a name
    every plain object inherits, so that the lookup of the code finds the
    function [Object] where the own keys give the fallback 0.5. *)
Example constructor_domain :
  matchedDomains (domainToolText deploy_contract) ["constructor"]
  = ["constructor"]
  /\ defaultDomainWeights !! "constructor" = None
  /\ JS.inherited "constructor" = true.
Proof. repeat split. Qed.

(** A command line as the proxy builds it, parsed by the script. *)
Example parseArgs_examples :
  TriggerCLI.parseArgs ["--pattern"; "url_group1"; "--branch"; "master"]
  = {| TriggerCLI.pattern := Some "url_group1";
       TriggerCLI.branch := Some "master"; TriggerCLI.org := None;
       TriggerCLI.repo := None; TriggerCLI.vcs := None |}
  /\ TriggerCLI.parseArgs ["--patern"; "x"] = TriggerCLI.noArgs
  /\ TriggerCLI.parseArgs [] = TriggerCLI.noArgs.
Proof. repeat split. Qed.

(** Two workflows that succeeded and one on hold. *)
Example summary_example :
  let s := ApiClient.summary
    [ {| ApiClient.id := "a"; ApiClient.status := Some "SUCCESS" |};
      {| ApiClient.id := "b"; ApiClient.status := Some "success" |};
      {| ApiClient.id := "c"; ApiClient.status := None |} ] in
  ApiClient.counts s !! "success" = Some 2%nat
  /\ ApiClient.counts s !! "unknown" = Some 1%nat
  /\ ApiClient.total s = 3%nat
  /\ ApiClient.done s = false.
Proof. repeat split. Qed.

End MoreConcrete.
